(** * The private blockchain of [src/blockchain.js]

    A shallow embedding of the [Blockchain] class: the chain array, the
    [height] field, block creation ([_addBlock]), star submission
    ([submitStar]), the three look-ups and [validateChain].

    Conventions of the embedding.
    - A JavaScript string is a [string]; each character stands for one code
      unit below 256.
    - A JavaScript number is a [JS.number]: an integer or [NaN].  Only
      integers occur in the class (heights, clock readings, [parseInt]
      results).  Doubles round integers beyond 2^53; the single comparison
      the class performs on such values ([timeElapsed > 300000]) has the same
      outcome on the rounded and on the exact integer as long as the clock
      reading itself is a valid [Date] value, so integers are kept exact.
    - A promise is the value it settles with ([promise]); [resolve] and
      [reject] only act on a pending promise, as in JavaScript, and do not
      stop the function that calls them.
    - The clock ([new Date().getTime()]) is an explicit argument [now], in
      milliseconds. *)

From Stdlib Require Import ZArith List String Ascii Bool Lia.
From Stdlib Require Import DecimalString DecimalPos.
Import ListNotations.

Open Scope string_scope.
Open Scope Z_scope.

(** ** JavaScript primitives used by the class *)

Module JS.

Inductive number : Type :=
| Num (z : Z)
| NaN.

(** [a - b] on numbers. *)
Definition sub (a b : number) : number :=
  match a, b with
  | Num x, Num y => Num (x - y)
  | _, _ => NaN
  end.

(** [a > b]: false as soon as one side is [NaN]. *)
Definition gt (a b : number) : bool :=
  match a, b with
  | Num x, Num y => y <? x
  | _, _ => false
  end.

(** White space skipped by [parseInt] (code units below 256). *)
Definition isWhiteSpace (c : ascii) : bool :=
  let n := nat_of_ascii c in
  ((9 <=? n) && (n <=? 13) || (n =? 32) || (n =? 160))%nat.

Fixpoint trimStart (s : string) : string :=
  match s with
  | String c r => if isWhiteSpace c then trimStart r else s
  | EmptyString => EmptyString
  end.

(** Value of a character as a digit, for radices up to 16. *)
Definition digitValue (c : ascii) : option Z :=
  let n := Z.of_nat (nat_of_ascii c) in
  if (48 <=? n) && (n <=? 57) then Some (n - 48)
  else if (97 <=? n) && (n <=? 102) then Some (n - 87)
  else if (65 <=? n) && (n <=? 70) then Some (n - 55)
  else None.

(** The longest prefix of [s] made of digits of [radix], as an integer;
    [acc] is [None] until a first digit has been read. *)
Fixpoint digitsPrefix (radix : Z) (s : string) (acc : option Z) : option Z :=
  match s with
  | EmptyString => acc
  | String c r =>
      match digitValue c with
      | Some d =>
          if d <? radix
          then digitsPrefix radix r
                 (Some (match acc with Some a => a * radix + d | None => d end))
          else acc
      | None => acc
      end
  end.

(** [parseInt(s)] without a radix argument. *)
Definition parseInt (s : string) : number :=
  let s1 := trimStart s in
  let '(sign, s2) :=
    match s1 with
    | String "-" r => (-1, r)
    | String "+" r => (1, r)
    | _ => (1, s1)
    end in
  let '(radix, s3) :=
    match s2 with
    | String "0" (String "x" r) => (16, r)
    | String "0" (String "X" r) => (16, r)
    | _ => (10, s2)
    end in
  match digitsPrefix radix s3 None with
  | Some n => Num (sign * n)
  | None => NaN
  end.

(** [s.split(sep)] for a one-character separator. *)
Fixpoint split (sep : ascii) (s : string) : list string :=
  match s with
  | EmptyString => [EmptyString]
  | String c r =>
      if Ascii.eqb c sep then EmptyString :: split sep r
      else match split sep r with
           | f :: fs => String c f :: fs
           | [] => [String c EmptyString]
           end
  end.

(** [a[i]]: [None] is [undefined]. *)
Definition index {A : Type} (a : list A) (i : nat) : option A := nth_error a i.

(** [parseInt] of a possibly undefined value: [undefined] is first
    converted to the string ["undefined"]. *)
Definition parseInt_of (v : option string) : number :=
  match v with
  | Some s => parseInt s
  | None => parseInt "undefined"
  end.

(** [n.toString()] for an integer. *)
Definition toString (z : Z) : string := NilZero.string_of_int (Z.to_int z).

(** [s.slice(0, -3)]. *)
Definition slice_0_m3 (s : string) : string :=
  substring 0 (String.length s - 3) s.

End JS.

(** ** Values, blocks and the libraries the class calls *)

(** Values that [JSON.parse] produces and [JSON.stringify] consumes.  A block
    body is such a value: a hexadecimal string while it is stored encoded,
    the decoded star once [_hexToJSON] has replaced it. *)
#[local] Set Warnings "-register-all".
Inductive json : Type :=
| JNull
| JBool (b : bool)
| JNumber (z : Z)
| JString (s : string)
| JArray (items : list json)
| JObject (members : list (string * json)).
#[local] Set Warnings "+register-all".

Module BlockClass.

(** The fields of a [Block] object.  [address] is not set by the class
    constructor; [submitStar] adds the property, so it is absent ([None])
    on the genesis block.  [hash] and [previousBlockHash] are [null]
    ([None]) until [_addBlock] assigns them. *)
Record Block : Type := mkBlock {
  hash : option string;
  height : Z;
  body : json;
  time : json;
  previousBlockHash : option string;
  address : option string
}.

Definition set_hash (v : option string) (b : Block) : Block :=
  mkBlock v (height b) (body b) (time b) (previousBlockHash b) (address b).
Definition set_height (v : Z) (b : Block) : Block :=
  mkBlock (hash b) v (body b) (time b) (previousBlockHash b) (address b).
Definition set_body (v : json) (b : Block) : Block :=
  mkBlock (hash b) (height b) v (time b) (previousBlockHash b) (address b).
Definition set_time (v : json) (b : Block) : Block :=
  mkBlock (hash b) (height b) (body b) v (previousBlockHash b) (address b).
Definition set_previousBlockHash (v : option string) (b : Block) : Block :=
  mkBlock (hash b) (height b) (body b) (time b) v (address b).
Definition set_address (v : option string) (b : Block) : Block :=
  mkBlock (hash b) (height b) (body b) (time b) (previousBlockHash b) v.

Definition nullable (v : option string) : json :=
  match v with
  | Some s => JString s
  | None => JNull
  end.

(** The object [JSON.stringify(block)] serialises: own properties in
    creation order, [address] last and only when present. *)
Definition toJSON (b : Block) : json :=
  JObject ([ ("hash", nullable (hash b));
             ("height", JNumber (height b));
             ("body", body b);
             ("time", time b);
             ("previousBlockHash", nullable (previousBlockHash b)) ]
           ++ match address b with
              | Some a => [("address", JString a)]
              | None => []
              end).

End BlockClass.

Import BlockClass.

(** What the class takes from outside [blockchain.js]: the libraries it
    requires, the built-in [JSON] object and the [validate] method of
    [block.js]. *)
Class Libs : Type := {
  (** [SHA256(s).toString()] of crypto-js. *)
  SHA256 : string -> string;
  JSON_stringify : json -> string;
  (** [JSON.parse(s)]; [None] when it throws a [SyntaxError]. *)
  JSON_parse : string -> option json;
  (** [Buffer.from(s).toString('hex')]. *)
  toHex : string -> string;
  (** [hex2ascii(v)], applied by the class to whatever a body holds. *)
  hex2ascii : json -> string;
  (** [bitcoinMessage.verify(message, address, signature)]; [None] when the
      library throws instead of answering. *)
  verify : string -> string -> string -> option bool;
  (** Truthiness of the value the promise of [block.validate()] is
      fulfilled with; that promise is already fulfilled when [validateChain]
      attaches its callback. *)
  validate : Block -> bool
}.

(** What a promise settles to. *)
Inductive error : Type :=
| Message (s : string)
| ErrorLog (entries : list string)
| TypeError
| SyntaxError.

Inductive promise (A : Type) : Type :=
| Pending
| Resolved (value : A)
| Rejected (reason : error).

Arguments Pending {A}.
Arguments Resolved {A} value.
Arguments Rejected {A} reason.

(** [resolve(v)] and [reject(e)] settle a pending promise and are ignored on
    a settled one. *)
Definition resolve {A : Type} (v : A) (p : promise A) : promise A :=
  match p with
  | Pending => Resolved v
  | _ => p
  end.

Definition reject {A : Type} (e : error) (p : promise A) : promise A :=
  match p with
  | Pending => Rejected e
  | _ => p
  end.

(** The two fields of a [Blockchain] object. *)
Record Blockchain : Type := mkBlockchain {
  chain : list Block;
  height : Z
}.

(** ** The class *)

Section Class.

Context {L : Libs}.

(** Modelled from the spec: the constructor of [Block], whose file
    [block.js] is not part of the sources; the payload is encoded on
    construction and the other fields start at their defaults (null hash,
    height 0, time 0, null previous hash), as the field list kept at the
    end of one revision of the class also shows. *)
Definition new_Block (data : json) : Block :=
  {| hash := None;
     BlockClass.height := 0;
     body := JString (toHex (JSON_stringify data));
     time := JNumber 0;
     previousBlockHash := None;
     address := None |}.

(** [_getCurrentTimeStamp()]: the clock reading without its last three
    digits, as a string. *)
Definition _getCurrentTimeStamp (now : Z) : string :=
  JS.slice_0_m3 (JS.toString now).

(** [_hexToJSON(hexStr)]; [None] when [JSON.parse] throws. *)
Definition _hexToJSON (hexStr : json) : option json :=
  JSON_parse (hex2ascii hexStr).

(** *** validateChain *)

(** A reaction attached with [.then] to the promise of one [validate()]
    call: [truthy] tells whether the value that promise is fulfilled with
    is truthy, [entry] is what the reaction then pushes on [errorLog]. *)
Record reaction : Type := mkReaction {
  truthy : bool;
  entry : string
}.

Definition run_reaction (errorLog : list string) (r : reaction) : list string :=
  if truthy r then errorLog ++ [entry r] else errorLog.

(** One turn of the loop, [i] from 1: the reaction on [chain[i]] then the
    reaction on [chain[i - 1]].  The second template reads [height] off
    the promise, not off the block, which prints as [undefined]. *)
Definition validateChain_turn (chain : list Block) (i : nat) : list reaction :=
  match JS.index chain i, JS.index chain (i - 1) with
  | Some currentBlock, Some previousBlock =>
      [ mkReaction (validate currentBlock)
          ("At height " ++ JS.toString (BlockClass.height currentBlock)
                        ++ " Block is not valid");
        mkReaction (validate previousBlock)
          "At height undefined Block is not valid" ]
  | _, _ => []
  end.

(** What [validateChain()] has done when it returns: the promise is
    already resolved with the array [errorLog], whose content at that
    moment is [resolved_with], and the reactions [queued] have not run
    yet.  They run, in order, before any reaction that the caller attaches
    to the returned promise, and push on that same array. *)
Record validation : Type := mkValidation {
  resolved_with : list string;
  queued : list reaction
}.

Definition validateChain (self : Blockchain) : validation :=
  let errorLog := [] in
  {| resolved_with := errorLog;
     queued := flat_map (validateChain_turn (chain self))
                 (seq 1 (List.length (chain self) - 1)) |}.

(** The content of [errorLog] as a reaction of the caller sees it. *)
Definition errorLog_seen (v : validation) : list string :=
  fold_left run_reaction (queued v) (resolved_with v).

(** *** _addBlock, initializeChain and the constructor *)

(** [_addBlock(block)]: returns the block as stored and the new state.
    The call to [validateChain] inside it only attaches a reaction whose
    result is dropped.  [this.height] is not assigned. *)
Definition _addBlock (now : Z) (block : Block) (self : Blockchain)
  : Block * Blockchain :=
  let block := set_height (Z.of_nat (List.length (chain self))) block in
  let block := set_time (JString (JS.slice_0_m3 (JS.toString now))) block in
  let block :=
    if (0 <? List.length (chain self))%nat
    then set_previousBlockHash
           (match JS.index (chain self) (List.length (chain self) - 1) with
            | Some tail => hash tail
            | None => None
            end) block
    else block in
  let block := set_height (BlockClass.height block + 1) block in
  let block := set_hash (Some (SHA256 (JSON_stringify (toJSON block)))) block in
  (block, mkBlockchain (chain self ++ [block]) (height self)).

Definition genesis_data : json := JObject [("data", JString "Genesis Block")].

Definition initializeChain (now : Z) (self : Blockchain) : Blockchain :=
  if height self =? -1
  then snd (_addBlock now (new_Block genesis_data) self)
  else self.

Definition constructor (now : Z) : Blockchain :=
  initializeChain now (mkBlockchain [] (-1)).

Definition getChainHeight (self : Blockchain) : promise Z :=
  Resolved (height self).

Definition requestMessageOwnershipVerification (now : Z) (address : string)
  : promise string :=
  Resolved (address ++ ":" ++ _getCurrentTimeStamp now ++ ":starRegistry").

(** *** submitStar *)

(** [currentTime - incomingTime], both in seconds. *)
Definition timeElapsed (now : Z) (message : string) : JS.number :=
  let incomingTime := JS.parseInt_of (JS.index (JS.split ":" message) 1) in
  let currentTime := JS.parseInt (JS.slice_0_m3 (JS.toString now)) in
  JS.sub currentTime incomingTime.

(** The test of the time gate. *)
Definition expired (now : Z) (message : string) : bool :=
  JS.gt (timeElapsed now message) (JS.Num 300000).

Definition time_elapsed_message : string :=
  "time elapsed. Please generated a new message and a signature".

Definition signature_message : string := "can not verify signature".

(** Outcome of one call: what the returned promise settles to, the state
    the call leaves, and the calls made to [bitcoinMessage.verify]. *)
Record submission : Type := mkSubmission {
  settled : promise Block;
  ledger : Blockchain;
  verify_calls : list (string * string * string)
}.

(** [submitStar(address, message, signature, star)].  All the work is done
    in the reaction attached to the promise of [validateChain]; no
    [reject] in it is followed by a [return].  When [verify] throws, the
    reaction stops there and the promise keeps the state it had. *)
Definition submitStar (now : Z) (address message signature : string)
    (star : json) (self : Blockchain) : submission :=
  let errorLog := errorLog_seen (validateChain self) in
  let p := Pending in
  let p := if (0 <? List.length errorLog)%nat
           then reject (ErrorLog errorLog) p else p in
  let p := if expired now message
           then reject (Message time_elapsed_message) p else p in
  let calls := [(message, address, signature)] in
  match verify message address signature with
  | None => mkSubmission p self calls
  | Some verified =>
      let p := if negb verified
               then reject (Message signature_message) p else p in
      let block := new_Block star in
      let block := set_address (Some address) block in
      let '(block, self') := _addBlock now block self in
      mkSubmission (resolve block p) self' calls
  end.

(** *** Look-ups *)

(** [_construcDuplicateBlock(block)]; [None] when one of the two
    [_hexToJSON] calls throws.  The copy has no [address]. *)
Definition _construcDuplicateBlock (block : Block) : option Block :=
  match _hexToJSON (body block) with
  | None => None
  | Some data =>
      let responseBlock := new_Block data in
      let responseBlock := set_hash (hash block) responseBlock in
      let responseBlock :=
        set_previousBlockHash (previousBlockHash block) responseBlock in
      let responseBlock := set_time (time block) responseBlock in
      let responseBlock := set_height (BlockClass.height block) responseBlock in
      match _hexToJSON (body responseBlock) with
      | None => None
      | Some decoded => Some (set_body decoded responseBlock)
      end
  end.

(** [v === s] for a nullable or absent string property [v]. *)
Definition same_string (v : option string) (s : string) : bool :=
  match v with
  | Some x => String.eqb x s
  | None => false
  end.

Definition getBlockByHash (hash : string) (self : Blockchain) : promise Block :=
  let result := filter (fun block => same_string (BlockClass.hash block) hash)
                  (chain self) in
  if (0 <? List.length result)%nat
  then match JS.index result 0 with
       | Some block =>
           match _construcDuplicateBlock block with
           | Some responseBlock => Resolved responseBlock
           | None => Rejected SyntaxError
           end
       | None => Rejected TypeError
       end
  else Rejected (Message ("No block found for hash " ++ hash)).

(** [getBlockByHeight(height)].  The promise is fulfilled with a block or
    with [null] ([None]); reading [height] off an undefined [block] throws
    a [TypeError] inside the executor, which rejects the promise. *)
Definition getBlockByHeight (height : Z) (self : Blockchain)
  : promise (option Block) :=
  match JS.index (filter (fun p => BlockClass.height p =? height) (chain self)) 0 with
  | None => Rejected TypeError
  | Some block =>
      if BlockClass.height block >=? 0
      then match _construcDuplicateBlock block with
           | Some responseBlock => Resolved (Some responseBlock)
           | None => Rejected SyntaxError
           end
      else Resolved None
  end.

Definition owned_by (address : string) (block : Block) : bool :=
  same_string (BlockClass.address block) address.

(** The [forEach] of [getStarsByWalletAddress].  The elements of [result]
    are the block objects of the chain array themselves, so assigning
    [r.body] changes the chain: the array is walked in order and every
    block that [result] holds is replaced by its decoded version, until
    [_hexToJSON] throws. *)
Fixpoint decode_in_place (address : string) (chain : list Block)
  : list Block * option error :=
  match chain with
  | [] => ([], None)
  | block :: rest =>
      if owned_by address block
      then match _hexToJSON (body block) with
           | Some data =>
               let '(rest', thrown) := decode_in_place address rest in
               (set_body data block :: rest', thrown)
           | None => (block :: rest, Some SyntaxError)
           end
      else let '(rest', thrown) := decode_in_place address rest in
           (block :: rest', thrown)
  end.

Record stars : Type := mkStars {
  found : promise (list Block);
  ledger_after : Blockchain
}.

Definition getStarsByWalletAddress (address : string) (self : Blockchain) : stars :=
  let result := filter (owned_by address) (chain self) in
  if (0 <? List.length result)%nat
  then let '(chain', thrown) := decode_in_place address (chain self) in
       let self' := mkBlockchain chain' (height self) in
       match thrown with
       | None => mkStars (Resolved (filter (owned_by address) chain')) self'
       | Some e => mkStars (Rejected e) self'
       end
  else mkStars (Rejected (Message ("No block found for address " ++ address))) self.

(** *** States a [Blockchain] object goes through *)

(** The object is built by the constructor and then only changed by the
    public methods that write to it. *)
Inductive reachable : Blockchain -> Prop :=
| reach_constructor (now : Z) :
    reachable (constructor now)
| reach_initializeChain (now : Z) (self : Blockchain) :
    reachable self ->
    reachable (initializeChain now self)
| reach_submitStar (now : Z) (address message signature : string)
    (star : json) (self : Blockchain) :
    reachable self ->
    reachable (ledger (submitStar now address message signature star self))
| reach_getStars (address : string) (self : Blockchain) :
    reachable self ->
    reachable (ledger_after (getStarsByWalletAddress address self)).

End Class.

(** ** Methods of the earlier revisions

    The repository keeps two earlier revisions of [blockchain.js].  Two
    methods of the first and the time test of the second are embedded here,
    for comparison with the class above. *)

Module Revision0.
Section Class.

Context {L : Libs}.

(** [_addBlock(block)] of the first revision: no increment of the height. *)
Definition _addBlock (now : Z) (block : Block) (self : Blockchain)
  : Block * Blockchain :=
  let block := set_height (Z.of_nat (List.length (chain self))) block in
  let block := set_time (JString (_getCurrentTimeStamp now)) block in
  let block :=
    if (0 <? List.length (chain self))%nat
    then set_previousBlockHash
           (match JS.index (chain self) (List.length (chain self) - 1) with
            | Some tail => hash tail
            | None => None
            end) block
    else block in
  let block := set_hash (Some (SHA256 (JSON_stringify (toJSON block)))) block in
  (block, mkBlockchain (chain self ++ [block]) (height self)).

(** [getBlockByHeight(height)] of the first revision: the test is on the
    block itself and the answer is a shallow copy of it. *)
Definition getBlockByHeight (height : Z) (self : Blockchain)
  : promise (option Block) :=
  match JS.index (filter (fun p => BlockClass.height p =? height) (chain self)) 0 with
  | Some block => Resolved (Some block)
  | None => Resolved None
  end.

End Class.
End Revision0.

Module Revision1.

(** The test of the time gate in the second revision of [submitStar]. *)
Definition expired (now : Z) (message : string) : bool :=
  JS.gt (timeElapsed now message) (JS.Num 300).

End Revision1.

(** ** Stand-ins for the libraries

    Executable instances of [Libs], used to run the class on concrete
    inputs.  [toHex], [hex2ascii] and the JSON functions follow the real
    ones on the texts they accept (characters below 128, integers, strings
    without escapes); the digest and the signature check are not
    cryptographic. *)

Module Reference.

Definition quote : ascii := ascii_of_nat 34.

Definition quoted (s : string) : string := String quote (s ++ String quote EmptyString).

Fixpoint stringify (v : json) : string :=
  match v with
  | JNull => "null"
  | JBool true => "true"
  | JBool false => "false"
  | JNumber z => JS.toString z
  | JString s => quoted s
  | JArray items =>
      "[" ++ (fix elements (l : list json) : string :=
                match l with
                | [] => EmptyString
                | x :: r =>
                    match r with
                    | [] => stringify x
                    | _ => stringify x ++ "," ++ elements r
                    end
                end) items ++ "]"
  | JObject members =>
      "{" ++ (fix pairs (l : list (string * json)) : string :=
                match l with
                | [] => EmptyString
                | (k, x) :: r =>
                    match r with
                    | [] => quoted k ++ ":" ++ stringify x
                    | _ => quoted k ++ ":" ++ stringify x ++ "," ++ pairs r
                    end
                end) members ++ "}"
  end.

Definition is_space (c : ascii) : bool :=
  let n := nat_of_ascii c in
  ((n =? 32) || (n =? 9) || (n =? 10) || (n =? 13))%nat.

Fixpoint skip (s : string) : string :=
  match s with
  | String c r => if is_space c then skip r else s
  | EmptyString => EmptyString
  end.

(** The characters up to the closing quote, and what follows it. *)
Fixpoint string_body (s : string) : option (string * string) :=
  match s with
  | EmptyString => None
  | String c r =>
      if Ascii.eqb c quote then Some (EmptyString, r)
      else if Ascii.eqb c "\" then None
      else match string_body r with
           | Some (t, r') => Some (String c t, r')
           | None => None
           end
  end.

Definition is_digit (c : ascii) : bool :=
  let n := nat_of_ascii c in ((48 <=? n) && (n <=? 57))%nat.

Fixpoint digits (s : string) : string * string :=
  match s with
  | String c r =>
      if is_digit c then let '(d, r') := digits r in (String c d, r')
      else (EmptyString, s)
  | EmptyString => (EmptyString, EmptyString)
  end.

Definition natural (s : string) : option (Z * string) :=
  match digits s with
  | (String "0" (String _ _), _) => None
  | (d, r) =>
      match JS.parseInt d with
      | JS.Num n => Some (n, r)
      | JS.NaN => None
      end
  end.

Definition literal (word : string) (v : json) (s : string) : option (json * string) :=
  if String.prefix word s
  then Some (v, substring (String.length word) (String.length s - String.length word) s)
  else None.

Fixpoint value (fuel : nat) (s : string) {struct fuel} : option (json * string) :=
  match fuel with
  | O => None
  | S fuel =>
      match skip s with
      | EmptyString => None
      | String c r =>
          if Ascii.eqb c quote then
            match string_body r with
            | Some (t, r') => Some (JString t, r')
            | None => None
            end
          else if Ascii.eqb c "[" then
            match skip r with
            | String "]" r' => Some (JArray [], r')
            | _ => match value fuel r with
                   | Some (v, r') => array_tail fuel r' [v]
                   | None => None
                   end
            end
          else if Ascii.eqb c "{" then
            match skip r with
            | String "}" r' => Some (JObject [], r')
            | _ => match member fuel r with
                   | Some (kv, r') => object_tail fuel r' [kv]
                   | None => None
                   end
            end
          else if Ascii.eqb c "-" then
            match natural r with
            | Some (n, r') => Some (JNumber (- n), r')
            | None => None
            end
          else if is_digit c then
            match natural (String c r) with
            | Some (n, r') => Some (JNumber n, r')
            | None => None
            end
          else if Ascii.eqb c "n" then literal "null" JNull (String c r)
          else if Ascii.eqb c "t" then literal "true" (JBool true) (String c r)
          else if Ascii.eqb c "f" then literal "false" (JBool false) (String c r)
          else None
      end
  end
with array_tail (fuel : nat) (s : string) (acc : list json) {struct fuel}
  : option (json * string) :=
  match fuel with
  | O => None
  | S fuel =>
      match skip s with
      | String "]" r => Some (JArray acc, r)
      | String "," r =>
          match value fuel r with
          | Some (v, r') => array_tail fuel r' (acc ++ [v])
          | None => None
          end
      | _ => None
      end
  end
with member (fuel : nat) (s : string) {struct fuel}
  : option ((string * json) * string) :=
  match fuel with
  | O => None
  | S fuel =>
      match skip s with
      | String c r =>
          if Ascii.eqb c quote then
            match string_body r with
            | Some (k, r') =>
                match skip r' with
                | String ":" r'' =>
                    match value fuel r'' with
                    | Some (v, r3) => Some ((k, v), r3)
                    | None => None
                    end
                | _ => None
                end
            | None => None
            end
          else None
      | EmptyString => None
      end
  end
with object_tail (fuel : nat) (s : string) (acc : list (string * json))
  {struct fuel} : option (json * string) :=
  match fuel with
  | O => None
  | S fuel =>
      match skip s with
      | String "}" r => Some (JObject acc, r)
      | String "," r =>
          match member fuel r with
          | Some (kv, r') => object_tail fuel r' (acc ++ [kv])
          | None => None
          end
      | _ => None
      end
  end.

Definition parse (s : string) : option json :=
  match value (2 * String.length s + 2) s with
  | Some (v, r) => match skip r with
                   | EmptyString => Some v
                   | _ => None
                   end
  | None => None
  end.

Definition hexDigit (n : nat) : ascii :=
  ascii_of_nat (if (n <? 10)%nat then 48 + n else 87 + n).

Fixpoint hex (s : string) : string :=
  match s with
  | EmptyString => EmptyString
  | String c r =>
      let n := nat_of_ascii c in
      String (hexDigit (n / 16)) (String (hexDigit (n mod 16)) (hex r))
  end.

Fixpoint strip (s : string) : string :=
  match s with
  | EmptyString => EmptyString
  | String c r => if JS.isWhiteSpace c then strip r else String c (strip r)
  end.

(** Two characters at a time; a pair that is no hexadecimal number or the
    number 0 yields no character. *)
Fixpoint ascii_of_pairs (fuel : nat) (s : string) : string :=
  match fuel, s with
  | S fuel, String a (String b r) =>
      match JS.digitsPrefix 16 (String a (String b EmptyString)) None with
      | Some (Zpos code) =>
          String (ascii_of_nat (Pos.to_nat code)) (ascii_of_pairs fuel r)
      | _ => ascii_of_pairs fuel r
      end
  | S _, String a EmptyString =>
      match JS.digitsPrefix 16 (String a EmptyString) None with
      | Some (Zpos code) => String (ascii_of_nat (Pos.to_nat code)) EmptyString
      | _ => EmptyString
      end
  | _, _ => EmptyString
  end.

(** [hex2ascii]: numbers and strings are decoded, any other value gives
    the empty string. *)
Definition unhex (v : json) : string :=
  match v with
  | JString s => ascii_of_pairs (String.length s) (strip s)
  | JNumber z => let s := JS.toString z in ascii_of_pairs (String.length s) (strip s)
  | _ => EmptyString
  end.

(** A 32-bit polynomial checksum, printed in decimal. *)
Fixpoint checksum (s : string) (h : Z) : Z :=
  match s with
  | EmptyString => h
  | String c r => checksum r ((h * 31 + Z.of_nat (nat_of_ascii c)) mod 4294967296)
  end.

Definition digest (s : string) : string := JS.toString (checksum s 7).

Definition sign (address message : string) : string :=
  "signed(" ++ address ++ "," ++ message ++ ")".

(** A string that [sign] cannot have produced is a malformed signature and
    makes the check throw, as the library does on a signature of the wrong
    length; a well-formed signature is compared with the one expected. *)
Definition check (message address signature : string) : option bool :=
  if String.prefix "signed(" signature
  then Some (String.eqb signature (sign address message))
  else None.

(** Modelled from the spec: the [validate] method of [Block], whose file
    [block.js] is not part of the sources.  A block is valid iff the digest
    recomputed over its stored fields, the [hash] field excluded (it is
    null while the hash is computed), reproduces the stored hash. *)
Definition validate_by_hash (b : Block) : bool :=
  same_string (hash b) (digest (stringify (toJSON (set_hash None b)))).

Definition libs : Libs :=
  {| SHA256 := digest;
     JSON_stringify := stringify;
     JSON_parse := parse;
     toHex := hex;
     hex2ascii := unhex;
     verify := check;
     validate := validate_by_hash |}.

(** A star, its owner and a signed challenge, for the examples. *)
Definition owner : string := "1FzpnkhbAteDkU1wXDtd8kKizQhqWcsLRk".

Definition star : json :=
  JObject [ ("dec", JString "68 52 56.9");
            ("ra", JString "16h 29m 1.0s");
            ("story", JString "Found star using the sky map") ].

Definition challenge : string := owner ++ ":1700000000:starRegistry".

(** The ledger right after construction, at second 1700000000. *)
Definition fresh : Blockchain := constructor (L := libs) 1700000000000.

(** [owner] submitting [star] at time [now]. *)
Definition submit (now : Z) (message signature : string) (self : Blockchain)
  : submission :=
  submitStar (L := libs) now owner message signature star self.

(** The fresh ledger after [owner] has registered [star] 100 seconds
    later. *)
Definition one_star : Blockchain :=
  ledger (submit 1700000100000 challenge (sign owner challenge) fresh).

(** The block that [owner] gets stored on the fresh ledger at time [now]. *)
Definition stored (now : Z) : Block :=
  fst (_addBlock (L := libs) now
         (set_address (Some owner) (new_Block (L := libs) star)) fresh).

(** The ledger with one star after the link of the second block has been
    overwritten. *)
Definition tampered : Blockchain :=
  mkBlockchain
    (map (fun b => if BlockClass.height b =? 2
                   then set_previousBlockHash (Some "0000") b else b)
       (chain one_star))
    (height one_star).

(** The hash of that block. *)
Definition star_hash : string :=
  match hash (stored 1700000100000) with
  | Some h => h
  | None => EmptyString
  end.

(** The ledger with one star once [owner] has asked for the stars. *)
Definition one_star_read : Blockchain :=
  ledger_after (getStarsByWalletAddress (L := libs) owner one_star).

(** A well-formed signature that does not verify for [challenge]: the
    signature [owner] gave for an earlier challenge.  Then a string that is
    no signature at all, a challenge whose time field is not a number, and
    an address that owns nothing. *)
Definition earlier_challenge : string := owner ++ ":1690000000:starRegistry".

Definition forged : string := sign owner earlier_challenge.

Definition malformed : string := "H8K4+1Vj".

Definition vague : string := owner ++ ":soon:starRegistry".

Definition stranger : string := "1BoatSLRHtKNngkdXEeobR76b53LETtpyT".

End Reference.

(** ** Invariants of the chain array *)

Section Invariants.

Context {L : Libs}.

(** Every field of a block but its body. *)
Definition frame (b : Block)
  : option string * Z * json * option string * option string :=
  (hash b, BlockClass.height b, time b, previousBlockHash b, address b).

(** Each block after the first carries the stored hash of the block just
    before it in the array. *)
Definition linked (c : list Block) : Prop :=
  forall (i : nat) (p b : Block),
    nth_error c i = Some p -> nth_error c (S i) = Some b ->
    exists h : string, hash p = Some h /\ previousBlockHash b = Some h.

(** The block at index [i] has height [i + 1]. *)
Definition numbered (c : list Block) : Prop :=
  forall (i : nat) (b : Block),
    nth_error c i = Some b -> BlockClass.height b = Z.of_nat i + 1.

Definition hashed (c : list Block) : Prop :=
  forall b : Block, In b c -> hash b <> None.

(** The array starts with a block that has no owner and no predecessor. *)
Definition genesis_first (c : list Block) : Prop :=
  exists (g : Block) (rest : list Block),
    c = g :: rest /\ address g = None /\ previousBlockHash g = None.

Record sound (self : Blockchain) : Prop := mkSound {
  sound_height : height self = -1;
  sound_linked : linked (chain self);
  sound_numbered : numbered (chain self);
  sound_hashed : hashed (chain self);
  sound_genesis : genesis_first (chain self)
}.

(** The promise after the two gates that precede the signature check. *)
Definition gates (now : Z) (message : string) (self : Blockchain) : promise Block :=
  let errorLog := errorLog_seen (validateChain self) in
  let p := if (0 <? List.length errorLog)%nat
           then reject (ErrorLog errorLog) Pending else Pending in
  if expired now message then reject (Message time_elapsed_message) p else p.

(** The blocks [bs] with their bodies replaced, in order, by the values
    [ds]. *)
Definition decoded_blocks (bs : list Block) (ds : list json) : list Block :=
  map (fun bd => set_body (snd bd) (fst bd)) (combine bs ds).

Definition undefined_entry : string := "At height undefined Block is not valid".

End Invariants.

(** ** Vocabulary of the further properties *)

Definition is_decimal (c : ascii) : bool :=
  let n := nat_of_ascii c in ((48 <=? n) && (n <=? 57))%nat.

(** Strings made of the characters 0 to 9 only. *)
Fixpoint all_decimal (s : string) : bool :=
  match s with
  | EmptyString => true
  | String c r => is_decimal c && all_decimal r
  end.

(** The number a string of decimal digits denotes, read after [acc]. *)
Fixpoint decimal_value (s : string) (acc : Z) : Z :=
  match s with
  | EmptyString => acc
  | String c r => decimal_value r (acc * 10 + (Z.of_nat (nat_of_ascii c) - 48))
  end.

Fixpoint no_colon (s : string) : bool :=
  match s with
  | EmptyString => true
  | String c r => negb (Ascii.eqb c ":") && no_colon r
  end.

Section Vocabulary.

Context {L : Libs}.

(** Encoding [v] as [new Block(v)] does and decoding it with [_hexToJSON]
    gives [v] back. *)
Definition round_trips (v : json) : Prop :=
  _hexToJSON (JString (toHex (JSON_stringify v))) = Some v.

(** The stored hash is the digest of the block serialised with a null
    [hash], as at the time [_addBlock] computed it. *)
Definition intact (b : Block) : Prop :=
  hash b = Some (SHA256 (JSON_stringify (toJSON (set_hash None b)))).

(** States reached without any call of [getStarsByWalletAddress]. *)
Inductive written : Blockchain -> Prop :=
| written_constructor (now : Z) :
    written (constructor now)
| written_initializeChain (now : Z) (self : Blockchain) :
    written self ->
    written (initializeChain now self)
| written_submitStar (now : Z) (address message signature : string)
    (star : json) (self : Blockchain) :
    written self ->
    written (ledger (submitStar now address message signature star self)).

(** [after] holds the blocks of [before], in the same order and with the
    same fields apart from their bodies, possibly followed by more blocks. *)
Definition extends (before after : Blockchain) : Prop :=
  exists more : list Block,
    map frame (chain after) = (map frame (chain before) ++ map frame more)%list.

(** What the two reactions of one turn of [validateChain] push, for a block
    [current] and the block [previous] before it. *)
Definition pair_entries (pair : Block * Block) : list string :=
  let '(previous, current) := pair in
  let entry :=
    "At height " ++ JS.toString (BlockClass.height current) ++ " Block is not valid" in
  ((if validate current then [entry] else [])
   ++ (if validate previous then [undefined_entry] else []))%list.

(** The two reactions of that turn. *)
Definition pair_reactions (pair : Block * Block) : list reaction :=
  [ mkReaction (validate (snd pair))
      ("At height " ++ JS.toString (BlockClass.height (snd pair))
                    ++ " Block is not valid");
    mkReaction (validate (fst pair)) undefined_entry ].

(** The block the constructor stores when it runs at time [now]. *)
Definition genesis (now : Z) : Block :=
  fst (_addBlock now (new_Block genesis_data) (mkBlockchain [] (-1))).

End Vocabulary.

(** ** Checks of the primitives *)

Example parseInt_digits : JS.parseInt "1700000000" = JS.Num 1700000000.
Proof. reflexivity. Qed.

Example parseInt_stops : JS.parseInt "  -12px" = JS.Num (-12).
Proof. reflexivity. Qed.

Example parseInt_hex : JS.parseInt "0x1f" = JS.Num 31.
Proof. reflexivity. Qed.

Example parseInt_nan : JS.parseInt "abc" = JS.NaN.
Proof. reflexivity. Qed.

Example parseInt_undefined : JS.parseInt_of None = JS.NaN.
Proof. reflexivity. Qed.

Example split_message :
  JS.split ":" "addr:1700000000:starRegistry" = ["addr"; "1700000000"; "starRegistry"].
Proof. reflexivity. Qed.

Example split_empty : JS.split ":" EmptyString = [EmptyString].
Proof. reflexivity. Qed.

Example toString_slice : JS.slice_0_m3 (JS.toString 1700000301123) = "1700000301".
Proof. reflexivity. Qed.

Example toString_short : JS.slice_0_m3 (JS.toString 999) = EmptyString.
Proof. reflexivity. Qed.

Example toString_negative : JS.toString (-42) = "-42".
Proof. reflexivity. Qed.

(** ** Properties of the class *)

Section Properties.

Context {L : Libs}.

(** *** What _addBlock stores *)

Lemma addBlock_chain (now : Z) (block : Block) (self : Blockchain) :
  chain (snd (_addBlock now block self))
  = (chain self ++ [fst (_addBlock now block self)])%list.
Proof. reflexivity. Qed.

Lemma addBlock_height_field (now : Z) (block : Block) (self : Blockchain) :
  height (snd (_addBlock now block self)) = height self.
Proof. reflexivity. Qed.

Lemma addBlock_block_height (now : Z) (block : Block) (self : Blockchain) :
  BlockClass.height (fst (_addBlock now block self))
  = Z.of_nat (List.length (chain self)) + 1.
Proof.
  unfold _addBlock; cbn.
  destruct (List.length (chain self)); reflexivity.
Qed.

Lemma addBlock_block_address (now : Z) (block : Block) (self : Blockchain) :
  address (fst (_addBlock now block self)) = address block.
Proof.
  unfold _addBlock; cbn.
  destruct (List.length (chain self)); reflexivity.
Qed.

Lemma addBlock_block_body (now : Z) (block : Block) (self : Blockchain) :
  body (fst (_addBlock now block self)) = body block.
Proof.
  unfold _addBlock; cbn.
  destruct (List.length (chain self)); reflexivity.
Qed.

Lemma addBlock_block_hashed (now : Z) (block : Block) (self : Blockchain) :
  hash (fst (_addBlock now block self)) <> None.
Proof. unfold _addBlock; cbn; discriminate. Qed.

(** On a non-empty chain the new block takes the hash of the last one. *)
Lemma addBlock_block_previous (now : Z) (block : Block) (self : Blockchain)
    (tail : Block) :
  nth_error (chain self) (List.length (chain self) - 1) = Some tail ->
  previousBlockHash (fst (_addBlock now block self)) = hash tail.
Proof.
  intros Htail. unfold _addBlock; cbn. unfold JS.index. rewrite Htail.
  destruct (chain self) as [|g rest]; [destruct (0 - 1)%nat; discriminate|].
  reflexivity.
Qed.

Lemma addBlock_genesis_previous (now : Z) (block : Block) (h : Z) :
  previousBlockHash (fst (_addBlock now block (mkBlockchain [] h)))
  = previousBlockHash block.
Proof. reflexivity. Qed.

(** *** What submitStar leaves behind *)

Lemma submitStar_ledger (now : Z) (address message signature : string)
    (star : json) (self : Blockchain) :
  ledger (submitStar now address message signature star self)
  = match verify message address signature with
    | Some _ => snd (_addBlock now (set_address (Some address) (new_Block star)) self)
    | None => self
    end.
Proof.
  unfold submitStar. destruct (verify message address signature); reflexivity.
Qed.

Lemma submitStar_verify_calls (now : Z) (address message signature : string)
    (star : json) (self : Blockchain) :
  verify_calls (submitStar now address message signature star self)
  = [(message, address, signature)].
Proof.
  unfold submitStar. destruct (verify message address signature); reflexivity.
Qed.

(** When [verify] throws, nothing is stored. *)
Lemma submitStar_verify_throws (now : Z) (address message signature : string)
    (star : json) (self : Blockchain) :
  verify message address signature = None ->
  ledger (submitStar now address message signature star self) = self.
Proof.
  intros Hv. rewrite submitStar_ledger, Hv. reflexivity.
Qed.

(** Whatever the two gates said, a call in which [verify] answers stores
    one more block, owned by [address]. *)
Lemma submitStar_appends (now : Z) (address message signature : string)
    (star : json) (self : Blockchain) (verified : bool) :
  verify message address signature = Some verified ->
  exists block : Block,
    chain (ledger (submitStar now address message signature star self))
    = (chain self ++ [block])%list
    /\ BlockClass.address block = Some address
    /\ body block = JString (toHex (JSON_stringify star)).
Proof.
  intros Hv. rewrite submitStar_ledger, Hv.
  eexists; split; [apply addBlock_chain|].
  rewrite addBlock_block_address, addBlock_block_body. split; reflexivity.
Qed.

(** *** The invariants hold in every reachable state *)

Lemma frames_nth (c c' : list Block) (i : nat) (b' : Block) :
  map frame c' = map frame c ->
  nth_error c' i = Some b' ->
  exists b : Block, nth_error c i = Some b /\ frame b = frame b'.
Proof.
  intros Hmap Hb'.
  assert (Hf : nth_error (map frame c) i = Some (frame b')).
  { rewrite <- Hmap. now apply map_nth_error. }
  rewrite nth_error_map in Hf.
  destruct (nth_error c i) as [b|]; [|discriminate].
  exists b. split; [reflexivity|]. cbn [option_map] in Hf. congruence.
Qed.

Lemma linked_frames (c c' : list Block) :
  map frame c' = map frame c -> linked c -> linked c'.
Proof.
  intros Hmap Hl i p' b' Hp Hb.
  destruct (frames_nth c c' i p' Hmap Hp) as (p & Hp0 & Fp).
  destruct (frames_nth c c' (S i) b' Hmap Hb) as (b & Hb0 & Fb).
  destruct (Hl i p b Hp0 Hb0) as (h & Hh & Hprev).
  unfold frame in Fp, Fb. inversion Fp. inversion Fb.
  exists h. split; congruence.
Qed.

Lemma numbered_frames (c c' : list Block) :
  map frame c' = map frame c -> numbered c -> numbered c'.
Proof.
  intros Hmap Hn i b' Hb.
  destruct (frames_nth c c' i b' Hmap Hb) as (b & Hb0 & Fb).
  unfold frame in Fb. inversion Fb. rewrite <- (Hn i b Hb0). congruence.
Qed.

Lemma hashed_frames (c c' : list Block) :
  map frame c' = map frame c -> hashed c -> hashed c'.
Proof.
  intros Hmap Hh b' Hin.
  destruct (In_nth_error c' b' Hin) as (i & Hb).
  destruct (frames_nth c c' i b' Hmap Hb) as (b & Hb0 & Fb).
  unfold frame in Fb. inversion Fb.
  assert (Hb1 : hash b <> None) by (apply Hh; eapply nth_error_In; eassumption).
  congruence.
Qed.

Lemma genesis_first_frames (c c' : list Block) :
  map frame c' = map frame c -> genesis_first c -> genesis_first c'.
Proof.
  intros Hmap (g & rest & -> & Ha & Hp).
  destruct c' as [|g' rest']; [discriminate|].
  cbn in Hmap. inversion Hmap as [[Hhash Hheight Htime Hprev Haddr Hrest]].
  exists g', rest'. split; [reflexivity|]. split; congruence.
Qed.

Lemma linked_append (c : list Block) (b : Block) :
  linked c -> hashed c ->
  (forall tail : Block,
      nth_error c (List.length c - 1) = Some tail ->
      previousBlockHash b = hash tail) ->
  linked (c ++ [b]).
Proof.
  intros Hl Hh Hprev i p x Hp Hx.
  assert (Hlen : (S i < List.length (c ++ [b]))%nat)
    by (apply nth_error_Some; congruence).
  rewrite length_app in Hlen; cbn in Hlen.
  destruct (Nat.eq_dec (S i) (List.length c)) as [Hlast|Hinner].
  - rewrite nth_error_app1 in Hp by lia.
    rewrite nth_error_app2 in Hx by lia.
    replace (S i - List.length c)%nat with 0%nat in Hx by lia.
    cbn in Hx. inversion Hx; subst x.
    assert (Htail : previousBlockHash b = hash p).
    { apply Hprev. replace (List.length c - 1)%nat with i by lia. exact Hp. }
    destruct (hash p) as [h|] eqn:Hhp.
    + exists h. split; [reflexivity|exact Htail].
    + exfalso. apply (Hh p); [eapply nth_error_In; eassumption|exact Hhp].
  - rewrite nth_error_app1 in Hp by lia.
    rewrite nth_error_app1 in Hx by lia.
    exact (Hl i p x Hp Hx).
Qed.

Lemma numbered_append (c : list Block) (b : Block) :
  numbered c ->
  BlockClass.height b = Z.of_nat (List.length c) + 1 ->
  numbered (c ++ [b]).
Proof.
  intros Hn Hb i x Hx.
  assert (Hlen : (i < List.length (c ++ [b]))%nat)
    by (apply nth_error_Some; congruence).
  rewrite length_app in Hlen; cbn in Hlen.
  destruct (Nat.eq_dec i (List.length c)) as [Hlast|Hinner].
  - rewrite nth_error_app2 in Hx by lia.
    replace (i - List.length c)%nat with 0%nat in Hx by lia.
    cbn in Hx. inversion Hx; subst x. rewrite Hb, Hlast. reflexivity.
  - rewrite nth_error_app1 in Hx by lia. exact (Hn i x Hx).
Qed.

Lemma hashed_append (c : list Block) (b : Block) :
  hashed c -> hash b <> None -> hashed (c ++ [b]).
Proof.
  intros Hh Hb x Hin. apply in_app_or in Hin. destruct Hin as [Hin|[->|[]]].
  - now apply Hh.
  - exact Hb.
Qed.

Lemma genesis_first_append (c : list Block) (b : Block) :
  genesis_first c -> genesis_first (c ++ [b]).
Proof.
  intros (g & rest & -> & Ha & Hp).
  exists g, (rest ++ [b])%list. repeat split; assumption.
Qed.

Lemma decode_in_place_frames (address : string) (c : list Block) :
  map frame (fst (decode_in_place address c)) = map frame c.
Proof.
  induction c as [|b rest IH]; [reflexivity|].
  cbn [decode_in_place].
  destruct (owned_by address b).
  - destruct (_hexToJSON (body b)) as [data|]; [|reflexivity].
    destruct (decode_in_place address rest) as [rest' thrown].
    cbn in *. now rewrite IH.
  - destruct (decode_in_place address rest) as [rest' thrown].
    cbn in *. now rewrite IH.
Qed.

Lemma getStars_ledger (address : string) (self : Blockchain) :
  height (ledger_after (getStarsByWalletAddress address self)) = height self
  /\ map frame (chain (ledger_after (getStarsByWalletAddress address self)))
     = map frame (chain self).
Proof.
  unfold getStarsByWalletAddress.
  destruct (0 <? List.length (filter (owned_by address) (chain self)))%nat;
    [|split; reflexivity].
  pose proof (decode_in_place_frames address (chain self)) as Hf.
  destruct (decode_in_place address (chain self)) as [chain' thrown].
  destruct thrown; split; (reflexivity || exact Hf).
Qed.

Lemma sound_constructor (now : Z) : sound (constructor now).
Proof.
  unfold constructor, initializeChain. cbn [height Z.eqb Pos.eqb].
  constructor.
  - reflexivity.
  - intros i p b Hp Hb. destruct i; discriminate.
  - intros i b Hb. destruct i as [|i]; [|destruct i; discriminate].
    cbn in Hb. inversion Hb. reflexivity.
  - intros b [<-|[]]. discriminate.
  - eexists _, []. cbn. repeat split; reflexivity.
Qed.

Lemma sound_addBlock (now : Z) (block : Block) (self : Blockchain) :
  sound self -> sound (snd (_addBlock now block self)).
Proof.
  intros [Hh Hl Hn Hd Hg]. constructor.
  - rewrite addBlock_height_field. exact Hh.
  - rewrite addBlock_chain. apply linked_append; [assumption..|].
    intros tail Htail. now apply addBlock_block_previous.
  - rewrite addBlock_chain. apply numbered_append; [assumption|].
    apply addBlock_block_height.
  - rewrite addBlock_chain. apply hashed_append; [assumption|].
    apply addBlock_block_hashed.
  - rewrite addBlock_chain. now apply genesis_first_append.
Qed.

Lemma sound_submitStar (now : Z) (address message signature : string)
    (star : json) (self : Blockchain) :
  sound self ->
  sound (ledger (submitStar now address message signature star self)).
Proof.
  intros Hs. rewrite submitStar_ledger.
  destruct (verify message address signature); [|exact Hs].
  now apply sound_addBlock.
Qed.

Lemma sound_getStars (address : string) (self : Blockchain) :
  sound self -> sound (ledger_after (getStarsByWalletAddress address self)).
Proof.
  intros [Hh Hl Hn Hd Hg].
  destruct (getStars_ledger address self) as [Hheight Hframes].
  constructor.
  - congruence.
  - eapply linked_frames; eassumption.
  - eapply numbered_frames; eassumption.
  - eapply hashed_frames; eassumption.
  - eapply genesis_first_frames; eassumption.
Qed.

Lemma sound_initializeChain (now : Z) (self : Blockchain) :
  sound self -> sound (initializeChain now self).
Proof.
  intros Hs. unfold initializeChain.
  destruct (height self =? -1); [|exact Hs].
  now apply sound_addBlock.
Qed.

Lemma reachable_sound (self : Blockchain) : reachable self -> sound self.
Proof.
  induction 1 as [now|now self _ IH
                 |now address message signature star self _ IH
                 |address self _ IH].
  - apply sound_constructor.
  - now apply sound_initializeChain.
  - now apply sound_submitStar.
  - now apply sound_getStars.
Qed.

(** *** The promise of submitStar *)

Lemma submitStar_settled (now : Z) (address message signature : string)
    (star : json) (self : Blockchain) :
  settled (submitStar now address message signature star self)
  = match verify message address signature with
    | Some verified =>
        resolve (fst (_addBlock now (set_address (Some address) (new_Block star)) self))
          (if negb verified
           then reject (Message signature_message) (gates now message self)
           else gates now message self)
    | None => gates now message self
    end.
Proof.
  unfold submitStar, gates.
  destruct (verify message address signature); reflexivity.
Qed.

Lemma gates_not_resolved (now : Z) (message : string) (self : Blockchain) :
  gates now message self = Pending
  \/ exists e : error, gates now message self = Rejected e.
Proof.
  unfold gates.
  destruct (0 <? _)%nat; destruct (expired now message); cbn; eauto.
Qed.

Lemma gates_expired (now : Z) (message : string) (self : Blockchain) :
  expired now message = true ->
  exists e : error, gates now message self = Rejected e.
Proof.
  unfold gates. intros ->.
  destruct (0 <? _)%nat; cbn; eauto.
Qed.

(** With the time gate open, the promise is never rejected with the
    message of that gate. *)
Lemma gates_open (now : Z) (message : string) (self : Blockchain) :
  expired now message = false ->
  gates now message self <> Rejected (Message time_elapsed_message).
Proof.
  unfold gates. intros ->.
  destruct (0 <? _)%nat; cbn; discriminate.
Qed.

(** *** Lists *)

Lemma filter_none {A : Type} (f : A -> bool) (l : list A) :
  (forall x : A, In x l -> f x = false) -> filter f l = [].
Proof.
  induction l as [|x l IH]; intros Hf; [reflexivity|].
  cbn. rewrite (Hf x (or_introl eq_refl)).
  apply IH. intros y Hy. apply Hf. now right.
Qed.

Lemma numbered_bounds (c : list Block) (b : Block) :
  numbered c -> In b c ->
  1 <= BlockClass.height b <= Z.of_nat (List.length c).
Proof.
  intros Hn Hin. destruct (In_nth_error c b Hin) as (i & Hi).
  assert (Hlt : (i < List.length c)%nat) by (apply nth_error_Some; congruence).
  rewrite (Hn i b Hi). lia.
Qed.

(** *** Heights *)

(** In every reachable state the heights stored in the array are 1, 2, 3,
    ... without a gap. *)
Lemma reachable_numbered (self : Blockchain) (i : nat) (b : Block) :
  reachable self ->
  nth_error (chain self) i = Some b ->
  BlockClass.height b = Z.of_nat i + 1.
Proof.
  intros Hr. apply (sound_numbered self (reachable_sound self Hr)).
Qed.

(** C4, on the code: the constructor stores a single block, without owner
    and with a null previous hash, but at height 1, because [_addBlock]
    increments the height it has just set to the length of the array; and
    [getBlockByHeight(0)] finds no block and is rejected with a TypeError
    instead of returning the genesis block. *)
Theorem genesis_stored_at_height_one (now : Z) :
  exists g : Block,
    chain (constructor now) = [g]
    /\ BlockClass.height g = 1
    /\ previousBlockHash g = None
    /\ address g = None
    /\ getBlockByHeight 0 (constructor now) = Rejected TypeError.
Proof.
  eexists. repeat split; reflexivity.
Qed.

(** C5, on the code: [this.height] is never assigned after the constructor
    has set it to -1, so [getChainHeight] answers -1 before and after a
    submission whose promise is fulfilled: it is negative and it does not
    advance, while the array has grown by one block. *)
Theorem getChainHeight_never_advances (now : Z)
    (address message signature : string) (star : json) (self : Blockchain)
    (block : Block) :
  reachable self ->
  settled (submitStar now address message signature star self) = Resolved block ->
  getChainHeight self = Resolved (-1)
  /\ getChainHeight (ledger (submitStar now address message signature star self))
     = Resolved (-1)
  /\ List.length (chain (ledger (submitStar now address message signature star self)))
     = S (List.length (chain self)).
Proof.
  intros Hr Hok.
  pose proof (reachable_sound self Hr) as Hs.
  pose proof (sound_submitStar now address message signature star self Hs) as Hs'.
  unfold getChainHeight.
  rewrite (sound_height _ Hs), (sound_height _ Hs').
  repeat split.
  rewrite submitStar_settled in Hok. rewrite submitStar_ledger.
  destruct (verify message address signature) as [verified|].
  - rewrite addBlock_chain, length_app. cbn. lia.
  - destruct (gates_not_resolved now message self) as [Hg|[e Hg]];
      rewrite Hg in Hok; discriminate.
Qed.

(** C6: after a submission whose promise is fulfilled, started in any
    reachable state, every block after the first one has as
    [previousBlockHash] the hash stored in the block just before it. *)
Theorem submitStar_links_blocks (now : Z)
    (address message signature : string) (star : json) (self : Blockchain)
    (block : Block) :
  reachable self ->
  settled (submitStar now address message signature star self) = Resolved block ->
  forall (i : nat) (p b : Block),
    nth_error (chain (ledger (submitStar now address message signature star self))) i
    = Some p ->
    nth_error (chain (ledger (submitStar now address message signature star self))) (S i)
    = Some b ->
    exists h : string, hash p = Some h /\ previousBlockHash b = Some h.
Proof.
  intros Hr _.
  apply (sound_linked _
           (sound_submitStar now address message signature star self
              (reachable_sound self Hr))).
Qed.

(** The same holds in every reachable state, whatever the last call was. *)
Lemma reachable_linked (self : Blockchain) :
  reachable self -> linked (chain self).
Proof.
  intros Hr. exact (sound_linked self (reachable_sound self Hr)).
Qed.

(** C9, on the code: for a height that no stored block has (below 1 or above
    the highest stored height) [filter(...)[0]] is undefined, reading its
    [height] throws, and the promise is rejected with a TypeError; the
    branch that resolves with null is never reached. *)
Theorem getBlockByHeight_absent_height_throws (h : Z) (self : Blockchain) :
  reachable self ->
  h < 1 \/ Z.of_nat (List.length (chain self)) < h ->
  getBlockByHeight h self = Rejected TypeError.
Proof.
  intros Hr Hout. unfold getBlockByHeight.
  rewrite filter_none; [reflexivity|].
  intros b Hin.
  pose proof (numbered_bounds (chain self) b
                (sound_numbered self (reachable_sound self Hr)) Hin) as Hb.
  apply Z.eqb_neq. lia.
Qed.

(** C10: when the second field of the message does not parse as an integer,
    the elapsed time is NaN, the test of the time gate is false, the promise
    is not rejected with the message of that gate, and the signature check
    is reached. *)
Theorem submitStar_unparsable_time_passes_gate (now : Z)
    (address message signature : string) (star : json) (self : Blockchain) :
  JS.parseInt_of (JS.index (JS.split ":" message) 1) = JS.NaN ->
  timeElapsed now message = JS.NaN
  /\ expired now message = false
  /\ settled (submitStar now address message signature star self)
     <> Rejected (Message time_elapsed_message)
  /\ verify_calls (submitStar now address message signature star self)
     = [(message, address, signature)].
Proof.
  intros Hnan.
  assert (Ht : timeElapsed now message = JS.NaN).
  { unfold timeElapsed. rewrite Hnan.
    destruct (JS.parseInt (JS.slice_0_m3 (JS.toString now))); reflexivity. }
  assert (He : expired now message = false).
  { unfold expired. rewrite Ht. reflexivity. }
  repeat split; try assumption.
  - rewrite submitStar_settled.
    pose proof (gates_open now message self He) as Hopen.
    destruct (verify message address signature) as [verified|]; [|exact Hopen].
    destruct (gates_not_resolved now message self) as [Hg|[e Hg]].
    + rewrite Hg. destruct verified; cbn; discriminate.
    + rewrite Hg in *. destruct verified; cbn; exact Hopen.
  - apply submitStar_verify_calls.
Qed.

(** *** submitStar does not stop at a closed gate *)

(** C1, on the code: a call whose challenge is expired by the test of the
    method itself (more than 300000 seconds old) has its promise rejected,
    and yet, because no [return] follows [reject], the signature is still
    checked and, when the check answers, the block is still appended. *)
Theorem submitStar_expired_still_verifies_and_appends (now : Z)
    (address message signature : string) (star : json) (self : Blockchain)
    (verified : bool) :
  expired now message = true ->
  verify message address signature = Some verified ->
  (exists e : error,
      settled (submitStar now address message signature star self) = Rejected e)
  /\ verify_calls (submitStar now address message signature star self)
     = [(message, address, signature)]
  /\ exists block : Block,
      chain (ledger (submitStar now address message signature star self))
      = (chain self ++ [block])%list
      /\ BlockClass.address block = Some address.
Proof.
  intros He Hv. split; [|split].
  - rewrite submitStar_settled, Hv.
    destruct (gates_expired now message self He) as [e Hg]. rewrite Hg.
    exists e. destruct verified; reflexivity.
  - apply submitStar_verify_calls.
  - destruct (submitStar_appends now address message signature star self
                verified Hv) as (block & Hc & Ha & _).
    exists block. split; assumption.
Qed.

(** C2, on the code: when [verify] answers false the promise is rejected,
    but the method goes on and appends the block all the same. *)
Theorem submitStar_bad_signature_still_appends (now : Z)
    (address message signature : string) (star : json) (self : Blockchain) :
  verify message address signature = Some false ->
  (exists e : error,
      settled (submitStar now address message signature star self) = Rejected e)
  /\ (gates now message self = Pending ->
      settled (submitStar now address message signature star self)
      = Rejected (Message signature_message))
  /\ exists block : Block,
      chain (ledger (submitStar now address message signature star self))
      = (chain self ++ [block])%list
      /\ BlockClass.address block = Some address.
Proof.
  intros Hv. split; [|split].
  - rewrite submitStar_settled, Hv.
    destruct (gates_not_resolved now message self) as [Hg|[e Hg]];
      rewrite Hg; cbn; eauto.
  - intros Hg. rewrite submitStar_settled, Hv, Hg. reflexivity.
  - destruct (submitStar_appends now address message signature star self
                false Hv) as (block & Hc & Ha & _).
    exists block. split; assumption.
Qed.

(** *** validateChain *)

Lemma errorLog_entries (q : list reaction) (errorLog : list string) :
  fold_left run_reaction q errorLog
  = (errorLog ++ map entry (filter truthy q))%list.
Proof.
  revert errorLog. induction q as [|r q IH]; intros errorLog; cbn.
  - now rewrite app_nil_r.
  - rewrite IH. unfold run_reaction. destruct (truthy r); cbn.
    + now rewrite <- app_assoc.
    + reflexivity.
Qed.

(** The reactions only depend on what each block answers about itself and
    on its height: no hash is compared with a [previousBlockHash]. *)
Lemma validateChain_blind_to_links (c1 c2 : list Block) (h1 h2 : Z) :
  map validate c1 = map validate c2 ->
  map BlockClass.height c1 = map BlockClass.height c2 ->
  queued (validateChain (mkBlockchain c1 h1))
  = queued (validateChain (mkBlockchain c2 h2)).
Proof.
  intros Hv Hh.
  assert (Hlen : List.length c1 = List.length c2).
  { rewrite <- (length_map validate c1), Hv. apply length_map. }
  unfold validateChain; cbn. rewrite Hlen.
  apply flat_map_ext. intros i. unfold validateChain_turn, JS.index.
  assert (Hnth : forall j : nat,
             option_map validate (nth_error c1 j) = option_map validate (nth_error c2 j)
             /\ option_map BlockClass.height (nth_error c1 j)
                = option_map BlockClass.height (nth_error c2 j)).
  { intros j. rewrite <- !nth_error_map, Hv, Hh. split; reflexivity. }
  destruct (Hnth i) as [Hvi Hhi]. destruct (Hnth (i - 1)%nat) as [Hvp _].
  destruct (nth_error c1 i) as [x1|], (nth_error c2 i) as [x2|];
    cbn in Hvi, Hhi; try discriminate; [|reflexivity].
  destruct (nth_error c1 (i - 1)) as [y1|], (nth_error c2 (i - 1)) as [y2|];
    cbn in Hvp; try discriminate; [|reflexivity].
  congruence.
Qed.

(** C3, on the code: on a chain of two blocks or more in which every block
    passes its own check, the promise is resolved while the array is still
    empty, and the array then receives entries, among them one that names no
    height: a reaction pushes when [validate] answers a truthy value. *)
Theorem validateChain_flags_valid_blocks (self : Blockchain) :
  (2 <= List.length (chain self))%nat ->
  (forall b : Block, In b (chain self) -> validate b = true) ->
  resolved_with (validateChain self) = []
  /\ errorLog_seen (validateChain self) <> []
  /\ In undefined_entry (errorLog_seen (validateChain self)).
Proof.
  intros Hlen Hvalid.
  assert (Hin : In undefined_entry (errorLog_seen (validateChain self))).
  { unfold errorLog_seen. rewrite errorLog_entries.
    unfold validateChain. cbn [resolved_with queued app].
    destruct (chain self) as [|g [|b rest]] eqn:Hc; cbn in Hlen; try lia.
    cbn [List.length Nat.sub seq flat_map].
    rewrite filter_app, map_app. apply in_or_app. left.
    unfold validateChain_turn. cbn [JS.index nth_error Nat.sub].
    rewrite (Hvalid g), (Hvalid b) by (cbn; auto).
    cbn. right. left. reflexivity. }
  repeat split; [|exact Hin].
  intros Hnil. rewrite Hnil in Hin. exact Hin.
Qed.

(** *** getStarsByWalletAddress *)

Lemma owned_by_set_body (address : string) (data : json) (b : Block) :
  owned_by address (set_body data b) = owned_by address b.
Proof. reflexivity. Qed.

(** When the [forEach] runs to its end, every owned block of the array has
    been replaced by its decoded version and the others are untouched. *)
Lemma decode_in_place_nth (address : string) (c c' : list Block) :
  decode_in_place address c = (c', None) ->
  forall (i : nat) (b : Block),
    nth_error c i = Some b ->
    if owned_by address b
    then exists data : json,
        _hexToJSON (body b) = Some data
        /\ nth_error c' i = Some (set_body data b)
    else nth_error c' i = Some b.
Proof.
  revert c'. induction c as [|x rest IH]; intros c' Hd i b Hb.
  - destruct i; discriminate.
  - cbn [decode_in_place] in Hd.
    destruct (owned_by address x) eqn:Hx.
    + destruct (_hexToJSON (body x)) as [data|] eqn:Hj; [|discriminate].
      destruct (decode_in_place address rest) as [rest' thrown].
      inversion Hd; subst c' thrown.
      destruct i as [|i]; cbn in Hb |- *.
      * inversion Hb; subst b. rewrite Hx. eauto.
      * exact (IH rest' eq_refl i b Hb).
    + destruct (decode_in_place address rest) as [rest' thrown].
      inversion Hd; subst c' thrown.
      destruct i as [|i]; cbn in Hb |- *.
      * inversion Hb; subst b. rewrite Hx. reflexivity.
      * exact (IH rest' eq_refl i b Hb).
Qed.

Lemma getStars_resolved (address : string) (self : Blockchain) (l : list Block) :
  found (getStarsByWalletAddress address self) = Resolved l ->
  exists c' : list Block,
    decode_in_place address (chain self) = (c', None)
    /\ ledger_after (getStarsByWalletAddress address self)
       = mkBlockchain c' (height self)
    /\ l = filter (owned_by address) c'.
Proof.
  unfold getStarsByWalletAddress.
  destruct (0 <? List.length (filter (owned_by address) (chain self)))%nat;
    [|discriminate].
  destruct (decode_in_place address (chain self)) as [c' [e|]]; [discriminate|].
  cbn. intros H. inversion H. eauto.
Qed.

(** C7, on the code: a fulfilled [getStarsByWalletAddress] has written the
    decoded star into the [body] of every block of the owner, in the chain
    array itself; the stored block differs from what was appended as soon as
    decoding changes the body. *)
Theorem getStarsByWalletAddress_overwrites_body (address : string)
    (self : Blockchain) (l : list Block) (i : nat) (b : Block) :
  found (getStarsByWalletAddress address self) = Resolved l ->
  nth_error (chain self) i = Some b ->
  owned_by address b = true ->
  exists data : json,
    _hexToJSON (body b) = Some data
    /\ nth_error (chain (ledger_after (getStarsByWalletAddress address self))) i
       = Some (set_body data b)
    /\ (data <> body b ->
        nth_error (chain (ledger_after (getStarsByWalletAddress address self))) i
        <> Some b).
Proof.
  intros Hfound Hb Hown.
  destruct (getStars_resolved address self l Hfound) as (c' & Hd & Hl & _).
  pose proof (decode_in_place_nth address (chain self) c' Hd i b Hb) as Hnth.
  rewrite Hown in Hnth. destruct Hnth as (data & Hj & Hi).
  exists data. rewrite Hl. cbn [chain]. repeat split; try assumption.
  intros Hne Heq. rewrite Hi in Heq. apply Hne.
  injection Heq as Hbody. apply (f_equal body) in Hbody. exact Hbody.
Qed.

Lemma decode_in_place_all (address : string) (c : list Block) (decoded : list json) :
  map (fun b => _hexToJSON (body b)) (filter (owned_by address) c)
  = map Some decoded ->
  exists c' : list Block,
    decode_in_place address c = (c', None)
    /\ filter (owned_by address) c'
       = decoded_blocks (filter (owned_by address) c) decoded.
Proof.
  revert decoded. induction c as [|x rest IH]; intros decoded Hm.
  - exists []. split; [reflexivity|]. reflexivity.
  - cbn [decode_in_place filter] in *.
    destruct (owned_by address x) eqn:Hx.
    + destruct decoded as [|d ds]; [discriminate|].
      cbn [map] in Hm. inversion Hm as [[Hj Hrest]].
      destruct (IH ds Hrest) as (rest' & Hd & Hf).
      rewrite Hj, Hd. exists (set_body d x :: rest'). split; [reflexivity|].
      cbn [filter]. rewrite owned_by_set_body, Hx, Hf. reflexivity.
    + destruct (IH decoded Hm) as (rest' & Hd & Hf).
      rewrite Hd. exists (x :: rest'). split; [reflexivity|].
      cbn [filter]. rewrite Hx. exact Hf.
Qed.

(** The genesis block has no owner, so only the blocks after it can belong
    to an address. *)
Lemma owned_after_genesis (address : string) (self : Blockchain) :
  reachable self ->
  filter (owned_by address) (chain self)
  = filter (owned_by address) (tl (chain self)).
Proof.
  intros Hr.
  destruct (sound_genesis self (reachable_sound self Hr)) as (g & rest & Hc & Ha & _).
  rewrite Hc. cbn. unfold owned_by. rewrite Ha. reflexivity.
Qed.

(** C8, as amended: for an address that owns no block the promise is
    rejected with the message "No block found for address ..." and the
    ledger is left as it was; when the address owns blocks and each of their
    bodies decodes, the promise is fulfilled with these blocks, in chain
    order, each with its body replaced by the decoded star; the genesis
    block is never among them. *)
Theorem getStarsByWalletAddress_outcomes (address : string) (self : Blockchain) :
  reachable self ->
  (filter (owned_by address) (tl (chain self)) = [] ->
   found (getStarsByWalletAddress address self)
   = Rejected (Message ("No block found for address " ++ address))
   /\ ledger_after (getStarsByWalletAddress address self) = self)
  /\ (forall decoded : list json,
         filter (owned_by address) (tl (chain self)) <> [] ->
         map (fun b => _hexToJSON (body b))
           (filter (owned_by address) (tl (chain self)))
         = map Some decoded ->
         found (getStarsByWalletAddress address self)
         = Resolved
             (decoded_blocks (filter (owned_by address) (tl (chain self))) decoded)).
Proof.
  intros Hr. rewrite <- (owned_after_genesis address self Hr). split.
  - intros Hnone. unfold getStarsByWalletAddress. rewrite Hnone.
    split; reflexivity.
  - intros decoded Hsome Hm. unfold getStarsByWalletAddress.
    destruct (filter (owned_by address) (chain self)) as [|x xs] eqn:Hf;
      [contradiction|].
    cbn [List.length Nat.ltb Nat.leb].
    rewrite <- Hf in Hm |- *.
    destruct (decode_in_place_all address (chain self) decoded Hm) as (c' & Hd & Hc').
    rewrite Hd, Hc'. reflexivity.
Qed.

End Properties.

(** ** The earlier revisions *)

Section Revisions.

Context {L : Libs}.

(** Without the increment the genesis block is stored at height 0. *)
Lemma revision0_genesis_height (now : Z) (block : Block) (h : Z) :
  BlockClass.height (fst (Revision0._addBlock now block (mkBlockchain [] h))) = 0.
Proof. reflexivity. Qed.

(** With the test on the block itself, a height that no block has is
    answered with null. *)
Lemma revision0_absent_height (h : Z) (self : Blockchain) :
  (forall b : Block, In b (chain self) -> BlockClass.height b <> h) ->
  Revision0.getBlockByHeight h self = Resolved None.
Proof.
  intros Habsent. unfold Revision0.getBlockByHeight.
  rewrite filter_none; [reflexivity|].
  intros b Hin. apply Z.eqb_neq. now apply Habsent.
Qed.

End Revisions.

(** ** The class on the reference ledger *)

Section Runs.

Import Reference.

(** A challenge issued 301 seconds before the submission is not expired for
    the method: the promise is fulfilled and the block is stored. *)
Example submitStar_301_seconds_old_is_accepted :
  expired 1700000301000 challenge = false
  /\ settled (submit 1700000301000 challenge (sign owner challenge) fresh)
     = Resolved (stored 1700000301000)
  /\ chain (ledger (submit 1700000301000 challenge (sign owner challenge) fresh))
     = (chain fresh ++ [stored 1700000301000])%list.
Proof. split; [|split]; vm_compute; reflexivity. Qed.

(** The same challenge is expired for the gate of the second revision. *)
Example revision1_301_seconds_old_is_expired :
  Revision1.expired 1700000301000 challenge = true.
Proof. vm_compute. reflexivity. Qed.

(** With a malformed signature the check throws: the promise stays pending
    and the ledger is as before. *)
Example submitStar_malformed_signature :
  settled (submit 1700000100000 challenge EmptyString fresh) = Pending
  /\ ledger (submit 1700000100000 challenge EmptyString fresh) = fresh.
Proof. split; vm_compute; reflexivity. Qed.

(** So does a string that is too short for a signature. *)
Example submitStar_short_signature :
  verify (Libs := libs) challenge owner malformed = None
  /\ settled (submit 1700000100000 challenge malformed fresh) = Pending
  /\ ledger (submit 1700000100000 challenge malformed fresh) = fresh.
Proof. split; [|split]; vm_compute; reflexivity. Qed.

(** On the ledger with one star every link and every hash is in order, and
    the array of [validateChain] ends up with two entries. *)
Example validateChain_on_consistent_ledger :
  map validate_by_hash (chain one_star) = [true; true]
  /\ resolved_with (validateChain (L := libs) one_star) = []
  /\ errorLog_seen (validateChain (L := libs) one_star)
     = ["At height 2 Block is not valid"; "At height undefined Block is not valid"].
Proof. split; [|split]; vm_compute; reflexivity. Qed.

(** With the link of the second block overwritten, that block fails its own
    check and the array gets one entry less; the link itself is not looked
    at. *)
Example validateChain_on_tampered_ledger :
  map previousBlockHash (chain tampered) = [None; Some "0000"]
  /\ map validate_by_hash (chain tampered) = [true; false]
  /\ errorLog_seen (validateChain (L := libs) tampered)
     = ["At height undefined Block is not valid"].
Proof. split; [|split]; vm_compute; reflexivity. Qed.

(** A second submission on that ledger is therefore rejected with these
    entries, and stored nevertheless. *)
Example second_submission_rejected_and_stored :
  settled (submit 1700000200000 challenge (sign owner challenge) one_star)
  = Rejected (ErrorLog ["At height 2 Block is not valid";
                        "At height undefined Block is not valid"])
  /\ List.length
       (chain (ledger (submit 1700000200000 challenge (sign owner challenge) one_star)))
     = 3%nat.
Proof. split; vm_compute; reflexivity. Qed.

(** After a first [getStarsByWalletAddress] the stored body is no longer
    hexadecimal: the block fails its own check and a second call throws. *)
Example getStars_twice :
  map validate_by_hash
    (chain (ledger_after (getStarsByWalletAddress (L := libs) owner one_star)))
  = [true; false]
  /\ found (getStarsByWalletAddress (L := libs) owner
              (ledger_after (getStarsByWalletAddress (L := libs) owner one_star)))
     = Rejected SyntaxError.
Proof. split; vm_compute; reflexivity. Qed.

(** C8, counterexample: on the fresh ledger an address that owns no block
    does not get the empty list. *)
Lemma getStars_unknown_address_not_empty_list :
  found (getStarsByWalletAddress (L := libs) stranger fresh) <> Resolved [].
Proof. vm_compute. discriminate. Qed.

(** A submission 400000 seconds after the challenge, with a good signature. *)
Lemma submitStar_expired_still_verifies_and_appends_witness :
  expired 1700400000000 challenge = true
  /\ verify (Libs := libs) challenge owner (sign owner challenge) = Some true
  /\ (exists e : error,
         settled (submit 1700400000000 challenge (sign owner challenge) fresh)
         = Rejected e)
  /\ (exists block : Block,
         chain (ledger (submit 1700400000000 challenge (sign owner challenge) fresh))
         = (chain fresh ++ [block])%list).
Proof.
  assert (He : expired 1700400000000 challenge = true) by (vm_compute; reflexivity).
  assert (Hv : verify (Libs := libs) challenge owner (sign owner challenge) = Some true)
    by (vm_compute; reflexivity).
  destruct (submitStar_expired_still_verifies_and_appends (L := libs)
              1700400000000 owner challenge (sign owner challenge) star fresh true
              He Hv) as (Hrej & _ & block & Hc & _).
  split; [exact He|]. split; [exact Hv|]. split; [exact Hrej|].
  exists block. exact Hc.
Defined.

(** A submission of [challenge] with the well-formed signature of another
    message, 100 seconds after the challenge. *)
Lemma submitStar_bad_signature_still_appends_witness :
  verify (Libs := libs) challenge owner forged = Some false
  /\ settled (submit 1700000100000 challenge forged fresh)
     = Rejected (Message signature_message)
  /\ (exists block : Block,
         chain (ledger (submit 1700000100000 challenge forged fresh))
         = (chain fresh ++ [block])%list).
Proof.
  assert (Hv : verify (Libs := libs) challenge owner forged = Some false)
    by (vm_compute; reflexivity).
  destruct (submitStar_bad_signature_still_appends (L := libs)
              1700000100000 owner challenge forged star fresh Hv)
    as (_ & Hsig & block & Hc & _).
  split; [exact Hv|]. split.
  - apply Hsig. vm_compute. reflexivity.
  - exists block. exact Hc.
Defined.

(** The ledger with one star: two blocks, both passing their own check. *)
Lemma validateChain_flags_valid_blocks_witness :
  (2 <= List.length (chain one_star))%nat
  /\ (forall b : Block, In b (chain one_star) -> validate (Libs := libs) b = true)
  /\ In undefined_entry (errorLog_seen (validateChain (L := libs) one_star)).
Proof.
  assert (Hlen : (2 <= List.length (chain one_star))%nat) by (vm_compute; lia).
  assert (Hvalid : forall b : Block,
             In b (chain one_star) -> validate (Libs := libs) b = true).
  { intros b [<-|[<-|[]]]; vm_compute; reflexivity. }
  split; [exact Hlen|]. split; [exact Hvalid|].
  apply (validateChain_flags_valid_blocks (L := libs) one_star Hlen Hvalid).
Defined.

(** The first submission on the fresh ledger is fulfilled. *)
Lemma getChainHeight_never_advances_witness :
  reachable (L := libs) fresh
  /\ settled (submit 1700000100000 challenge (sign owner challenge) fresh)
     = Resolved (stored 1700000100000)
  /\ getChainHeight fresh = Resolved (-1)
  /\ getChainHeight one_star = Resolved (-1).
Proof.
  assert (Hr : reachable (L := libs) fresh) by apply reach_constructor.
  assert (Hs : settled (submit 1700000100000 challenge (sign owner challenge) fresh)
               = Resolved (stored 1700000100000))
    by (vm_compute; reflexivity).
  destruct (getChainHeight_never_advances (L := libs) _ _ _ _ _ _ _ Hr Hs)
    as (Hbefore & Hafter & _).
  split; [exact Hr|]. split; [exact Hs|]. split; [exact Hbefore|exact Hafter].
Defined.

(** The same submission, for the links. *)
Lemma submitStar_links_blocks_witness :
  reachable (L := libs) fresh
  /\ settled (submit 1700000100000 challenge (sign owner challenge) fresh)
     = Resolved (stored 1700000100000)
  /\ linked (chain one_star).
Proof.
  assert (Hr : reachable (L := libs) fresh) by apply reach_constructor.
  assert (Hs : settled (submit 1700000100000 challenge (sign owner challenge) fresh)
               = Resolved (stored 1700000100000))
    by (vm_compute; reflexivity).
  split; [exact Hr|]. split; [exact Hs|].
  exact (submitStar_links_blocks (L := libs) _ _ _ _ _ _ _ Hr Hs).
Defined.

(** The stars of [owner] on the ledger with one star: the stored body was a
    hexadecimal string and is the star afterwards. *)
Lemma getStarsByWalletAddress_overwrites_body_witness :
  found (getStarsByWalletAddress (L := libs) owner one_star)
  = Resolved [set_body star (stored 1700000100000)]
  /\ nth_error (chain one_star) 1 = Some (stored 1700000100000)
  /\ owned_by owner (stored 1700000100000) = true
  /\ body (stored 1700000100000) = JString (hex (stringify star))
  /\ exists data : json,
      _hexToJSON (L := libs) (body (stored 1700000100000)) = Some data
      /\ nth_error
           (chain (ledger_after (getStarsByWalletAddress (L := libs) owner one_star))) 1
         = Some (set_body data (stored 1700000100000)).
Proof.
  assert (Hf : found (getStarsByWalletAddress (L := libs) owner one_star)
               = Resolved [set_body star (stored 1700000100000)])
    by (vm_compute; reflexivity).
  assert (Hb : nth_error (chain one_star) 1 = Some (stored 1700000100000))
    by (vm_compute; reflexivity).
  assert (Ho : owned_by owner (stored 1700000100000) = true)
    by (vm_compute; reflexivity).
  destruct (getStarsByWalletAddress_overwrites_body (L := libs) owner one_star
              _ 1%nat _ Hf Hb Ho) as (data & Hj & Hstored & _).
  split; [exact Hf|]. split; [exact Hb|]. split; [exact Ho|].
  split; [vm_compute; reflexivity|].
  exists data. split; [exact Hj|exact Hstored].
Defined.

(** On the ledger with one star, a stranger is rejected and [owner] gets the
    block with the decoded star. *)
Lemma getStarsByWalletAddress_outcomes_witness :
  reachable (L := libs) one_star
  /\ found (getStarsByWalletAddress (L := libs) stranger one_star)
     = Rejected (Message ("No block found for address " ++ stranger))
  /\ filter (owned_by owner) (tl (chain one_star)) = [stored 1700000100000]
  /\ found (getStarsByWalletAddress (L := libs) owner one_star)
     = Resolved (decoded_blocks [stored 1700000100000] [star]).
Proof.
  assert (Hr : reachable (L := libs) one_star)
    by (apply reach_submitStar, reach_constructor).
  assert (Hnone : filter (owned_by stranger) (tl (chain one_star)) = [])
    by (vm_compute; reflexivity).
  assert (Hsome : filter (owned_by owner) (tl (chain one_star))
                  = [stored 1700000100000])
    by (vm_compute; reflexivity).
  destruct (getStarsByWalletAddress_outcomes (L := libs) stranger one_star Hr)
    as (Hrejected & _).
  destruct (getStarsByWalletAddress_outcomes (L := libs) owner one_star Hr)
    as (_ & Hfulfilled).
  split; [exact Hr|]. split; [exact (proj1 (Hrejected Hnone))|].
  split; [exact Hsome|].
  rewrite <- Hsome. apply Hfulfilled.
  - rewrite Hsome. discriminate.
  - rewrite Hsome. vm_compute. reflexivity.
Defined.

(** Height 9999 on the fresh ledger. *)
Lemma getBlockByHeight_absent_height_throws_witness :
  reachable (L := libs) fresh
  /\ Z.of_nat (List.length (chain fresh)) < 9999
  /\ getBlockByHeight (L := libs) 9999 fresh = Rejected TypeError.
Proof.
  assert (Hr : reachable (L := libs) fresh) by apply reach_constructor.
  assert (Hh : Z.of_nat (List.length (chain fresh)) < 9999) by (vm_compute; reflexivity).
  split; [exact Hr|]. split; [exact Hh|].
  apply (getBlockByHeight_absent_height_throws (L := libs) 9999 fresh Hr).
  right. exact Hh.
Defined.

(** A challenge whose time field is not a number. *)
Lemma submitStar_unparsable_time_passes_gate_witness :
  JS.parseInt_of (JS.index (JS.split ":" vague) 1) = JS.NaN
  /\ expired 1700000100000 vague = false
  /\ verify_calls (submit 1700000100000 vague (sign owner vague) fresh)
     = [(vague, owner, sign owner vague)].
Proof.
  assert (Hn : JS.parseInt_of (JS.index (JS.split ":" vague) 1) = JS.NaN)
    by (vm_compute; reflexivity).
  destruct (submitStar_unparsable_time_passes_gate (L := libs)
              1700000100000 owner vague (sign owner vague) star fresh Hn)
    as (_ & He & _ & Hc).
  split; [exact Hn|]. split; [exact He|exact Hc].
Defined.

End Runs.

(** ** Time stamps and challenges *)

Lemma is_decimal_digitValue (c : ascii) :
  is_decimal c = true ->
  JS.digitValue c = Some (Z.of_nat (nat_of_ascii c) - 48)
  /\ 0 <= Z.of_nat (nat_of_ascii c) - 48 < 10.
Proof.
  destruct c as [[|] [|] [|] [|] [|] [|] [|] [|]]; intros H;
    try discriminate H; split; try reflexivity; vm_compute; split; congruence.
Qed.

Lemma digitsPrefix_decimal (s : string) (a : Z) :
  all_decimal s = true ->
  JS.digitsPrefix 10 s (Some a) = Some (decimal_value s a).
Proof.
  revert a. induction s as [|c r IH]; intros a H; [reflexivity|].
  cbn [all_decimal] in H. apply andb_prop in H. destruct H as [Hc Hr].
  destruct (is_decimal_digitValue c Hc) as [Hd Hb].
  cbn [JS.digitsPrefix decimal_value]. rewrite Hd.
  replace (Z.of_nat (nat_of_ascii c) - 48 <? 10) with true
    by (symmetry; apply Z.ltb_lt; lia).
  now apply IH.
Qed.

Lemma digitsPrefix_decimal_start (c : ascii) (r : string) :
  all_decimal (String c r) = true ->
  JS.digitsPrefix 10 (String c r) None = Some (decimal_value (String c r) 0).
Proof.
  intros H. cbn [all_decimal] in H. apply andb_prop in H. destruct H as [Hc Hr].
  destruct (is_decimal_digitValue c Hc) as [Hd Hb].
  cbn [JS.digitsPrefix decimal_value]. rewrite Hd.
  replace (Z.of_nat (nat_of_ascii c) - 48 <? 10) with true
    by (symmetry; apply Z.ltb_lt; lia).
  now apply digitsPrefix_decimal.
Qed.

Lemma is_decimal_not_space (c : ascii) :
  is_decimal c = true -> JS.isWhiteSpace c = false.
Proof.
  destruct c as [[|] [|] [|] [|] [|] [|] [|] [|]]; intros H;
    try discriminate H; reflexivity.
Qed.

Lemma parseInt_decimal (s : string) :
  s <> EmptyString -> all_decimal s = true ->
  JS.parseInt s = JS.Num (decimal_value s 0).
Proof.
  destruct s as [|c r]; [congruence|]. intros _ H.
  pose proof (digitsPrefix_decimal_start c r H) as Hp.
  pose proof H as H0.
  cbn [all_decimal] in H0. apply andb_prop in H0. destruct H0 as [Hc Hr].
  assert (Hone : forall n : Z, 1 * n = n) by (intros; lia).
  unfold JS.parseInt. cbn [JS.trimStart]. rewrite (is_decimal_not_space c Hc).
  destruct c as [[|] [|] [|] [|] [|] [|] [|] [|]]; try discriminate Hc;
    cbv beta iota zeta; try (rewrite Hp, Hone; reflexivity).
  destruct r as [|c2 r2].
  - reflexivity.
  - cbn [all_decimal] in Hr. apply andb_prop in Hr. destruct Hr as [Hc2 Hr2].
    destruct c2 as [[|] [|] [|] [|] [|] [|] [|] [|]]; try discriminate Hc2;
      cbv beta iota zeta; rewrite Hp, Hone; reflexivity.
Qed.

Lemma decimal_value_app (s1 s2 : string) (a : Z) :
  decimal_value (s1 ++ s2) a = decimal_value s2 (decimal_value s1 a).
Proof.
  revert a. induction s1 as [|c r IH]; intros a; [reflexivity|].
  cbn. apply IH.
Qed.

Lemma all_decimal_app (s1 s2 : string) :
  all_decimal (s1 ++ s2) = all_decimal s1 && all_decimal s2.
Proof.
  induction s1 as [|c r IH]; [reflexivity|].
  cbn. rewrite IH. now rewrite andb_assoc.
Qed.

Lemma decimal_value_shift (s : string) (a : Z) :
  all_decimal s = true ->
  decimal_value s a = a * 10 ^ Z.of_nat (String.length s) + decimal_value s 0
  /\ 0 <= decimal_value s 0 < 10 ^ Z.of_nat (String.length s).
Proof.
  revert a. induction s as [|c r IH]; intros a H.
  - cbn. lia.
  - cbn [all_decimal] in H. apply andb_prop in H. destruct H as [Hc Hr].
    destruct (is_decimal_digitValue c Hc) as [_ Hb].
    cbn [decimal_value String.length].
    destruct (IH (a * 10 + (Z.of_nat (nat_of_ascii c) - 48)) Hr) as [E1 _].
    destruct (IH (0 * 10 + (Z.of_nat (nat_of_ascii c) - 48)) Hr) as [E2 B].
    rewrite E1, E2.
    rewrite Nat2Z.inj_succ, Z.pow_succ_r by lia.
    set (p := 10 ^ Z.of_nat (String.length r)) in *.
    assert (0 < p) by (apply Z.pow_pos_nonneg; lia).
    split; [ring|]. nia.
Qed.

(** A string is its first [n] characters followed by the rest. *)
Lemma substring_prefix (n : nat) (s : string) :
  exists rest : string,
    s = substring 0 n s ++ rest
    /\ String.length rest = (String.length s - n)%nat.
Proof.
  revert n. induction s as [|c r IH]; intros n.
  - exists EmptyString. destruct n; split; reflexivity.
  - destruct n as [|n].
    + exists (String c r). split; reflexivity.
    + destruct (IH n) as (rest & E & Hl). exists rest. cbn. split; [|exact Hl].
      now rewrite <- E.
Qed.

Lemma string_of_uint_decimal (d : Decimal.uint) :
  all_decimal (NilEmpty.string_of_uint d) = true.
Proof. induction d; cbn; auto. Qed.

Lemma string_of_uint_acc (d : Decimal.uint) (acc : positive) :
  decimal_value (NilEmpty.string_of_uint d) (Zpos acc)
  = Zpos (Pos.of_uint_acc d acc).
Proof.
  revert acc. induction d; intros acc;
    cbn [NilEmpty.string_of_uint decimal_value Pos.of_uint_acc];
    try reflexivity; rewrite <- IHd; f_equal;
    match goal with
    | |- context [Z.of_nat (nat_of_ascii ?c)] =>
        let v := eval vm_compute in (Z.of_nat (nat_of_ascii c)) in
        change (Z.of_nat (nat_of_ascii c)) with v
    end; lia.
Qed.

Lemma string_of_uint_value (d : Decimal.uint) :
  decimal_value (NilEmpty.string_of_uint d) 0 = Z.of_N (Pos.of_uint d).
Proof.
  induction d; cbn [NilEmpty.string_of_uint decimal_value Pos.of_uint];
    try reflexivity; try exact IHd;
    cbn [Z.of_N]; rewrite <- string_of_uint_acc; f_equal.
Qed.

Lemma toString_decimal (z : Z) :
  0 < z ->
  all_decimal (JS.toString z) = true
  /\ decimal_value (JS.toString z) 0 = z.
Proof.
  destruct z as [|p|p]; try lia. intros _.
  unfold JS.toString. cbn [Z.to_int NilZero.string_of_int].
  unfold NilZero.string_of_uint.
  pose proof (Unsigned.to_uint_nonnil p) as Hn.
  destruct (Pos.to_uint p) eqn:E; try congruence; rewrite <- E;
    (split; [apply string_of_uint_decimal|]);
    rewrite string_of_uint_value, Unsigned.of_to; reflexivity.
Qed.


(** From the second 1 on, the time stamp is a non-empty string of digits
    that denotes the clock reading in whole seconds. *)
Lemma stamp_decimal (now : Z) :
  1000 <= now ->
  _getCurrentTimeStamp now <> EmptyString
  /\ all_decimal (_getCurrentTimeStamp now) = true
  /\ decimal_value (_getCurrentTimeStamp now) 0 = now / 1000.
Proof.
  intros Hnow. unfold _getCurrentTimeStamp, JS.slice_0_m3.
  destruct (toString_decimal now ltac:(lia)) as [Hd Hv].
  set (s := JS.toString now) in *.
  destruct (substring_prefix (String.length s - 3) s) as (lo & E & Hlo).
  set (hi := substring 0 (String.length s - 3) s) in *.
  assert (Hall : all_decimal hi = true /\ all_decimal lo = true).
  { rewrite E, all_decimal_app in Hd. now apply andb_prop in Hd. }
  destruct Hall as [Hhi Hlow].
  destruct (decimal_value_shift s 0 Hd) as [_ Hbound].
  assert (Hlen : (4 <= String.length s)%nat).
  { destruct (le_lt_dec 4 (String.length s)) as [|Hshort]; [assumption|exfalso].
    assert (10 ^ Z.of_nat (String.length s) <= 10 ^ 3)
      by (apply Z.pow_le_mono_r; lia).
    lia. }
  assert (Hlo3 : String.length lo = 3%nat) by lia.
  assert (Hsplit : now = decimal_value hi 0 * 1000 + decimal_value lo 0
                   /\ 0 <= decimal_value lo 0 < 1000).
  { destruct (decimal_value_shift lo (decimal_value hi 0) Hlow) as [E1 B1].
    rewrite Hlo3 in E1, B1. change (10 ^ Z.of_nat 3) with 1000 in E1, B1.
    split; [|exact B1]. rewrite <- Hv, E, decimal_value_app. exact E1. }
  split; [|split; [exact Hhi|]].
  - intros Hempty. rewrite Hempty in E. cbn in E.
    assert (String.length s = String.length lo) by (f_equal; exact E). lia.
  - destruct Hsplit as [Hs Hb].
    apply (Z.div_unique now 1000 (decimal_value hi 0) (decimal_value lo 0)); lia.
Qed.

(** X1: from the second 1 on, the current time that [submitStar] computes,
    [parseInt] of the clock reading without its last three digits, is the
    clock reading divided by 1000: the method counts in whole seconds. *)
Theorem currentTime_is_seconds (now : Z) :
  1000 <= now ->
  JS.parseInt (_getCurrentTimeStamp now) = JS.Num (now / 1000).
Proof.
  intros Hnow. destruct (stamp_decimal now Hnow) as (Hne & Hd & Hv).
  rewrite (parseInt_decimal _ Hne Hd), Hv. reflexivity.
Qed.

Lemma is_decimal_not_colon (c : ascii) :
  is_decimal c = true -> Ascii.eqb c ":" = false.
Proof.
  destruct c as [[|] [|] [|] [|] [|] [|] [|] [|]]; intros H;
    try discriminate H; reflexivity.
Qed.

Lemma all_decimal_no_colon (s : string) :
  all_decimal s = true -> no_colon s = true.
Proof.
  induction s as [|c r IH]; [reflexivity|].
  cbn. intros H. apply andb_prop in H. destruct H as [Hc Hr].
  rewrite (is_decimal_not_colon c Hc), (IH Hr). reflexivity.
Qed.

(** The first field of a split is what stands before the first colon. *)
Lemma split_first_field (a r : string) :
  no_colon a = true ->
  JS.split ":" (a ++ String ":" r) = a :: JS.split ":" r.
Proof.
  induction a as [|c a IH]; intros H; [reflexivity|].
  cbn [no_colon] in H. apply andb_prop in H. destruct H as [Hc Ha].
  apply negb_true_iff in Hc.
  cbn [append JS.split]. rewrite Hc, (IH Ha). reflexivity.
Qed.

(** X2: a challenge issued at [issued] for an address without a colon and
    submitted at [now], both from the second 1 on, has as elapsed time the
    difference of the two clock readings in whole seconds, and is expired
    for [submitStar] exactly when that difference exceeds 300000. *)
Theorem issued_challenge_elapsed (issued now : Z) (address : string) :
  1000 <= issued -> 1000 <= now ->
  no_colon address = true ->
  exists message : string,
    requestMessageOwnershipVerification issued address = Resolved message
    /\ timeElapsed now message = JS.Num (now / 1000 - issued / 1000)
    /\ expired now message = (300000 <? now / 1000 - issued / 1000).
Proof.
  intros Hissued Hnow Haddr.
  destruct (stamp_decimal issued Hissued) as (Hne & Hd & Hv).
  destruct (stamp_decimal now Hnow) as (Hne' & Hd' & Hv').
  eexists. split; [reflexivity|].
  assert (Ht : timeElapsed now
                 (address ++ ":" ++ _getCurrentTimeStamp issued ++ ":starRegistry")
               = JS.Num (now / 1000 - issued / 1000)).
  { unfold timeElapsed.
    change (":" ++ _getCurrentTimeStamp issued ++ ":starRegistry")
      with (String ":" (_getCurrentTimeStamp issued ++ String ":" "starRegistry")).
    rewrite (split_first_field address _ Haddr).
    rewrite (split_first_field _ _ (all_decimal_no_colon _ Hd)).
    cbn [JS.index nth_error JS.parseInt_of].
    rewrite (parseInt_decimal _ Hne Hd), Hv.
    fold (_getCurrentTimeStamp now). rewrite (parseInt_decimal _ Hne' Hd'), Hv'.
    reflexivity. }
  split; [exact Ht|]. unfold expired. rewrite Ht. reflexivity.
Qed.

(** ** Look-ups *)

Section Lookups.

Context {L : Libs}.

Lemma same_string_true (v : option string) (s : string) :
  same_string v s = true <-> v = Some s.
Proof.
  destruct v as [x|]; cbn; [|split; discriminate].
  rewrite String.eqb_eq. split; congruence.
Qed.

(** What a copy made by [_construcDuplicateBlock] holds. *)
Lemma duplicate_fields (b r : Block) :
  _construcDuplicateBlock b = Some r ->
  hash r = hash b
  /\ BlockClass.height r = BlockClass.height b
  /\ time r = time b
  /\ previousBlockHash r = previousBlockHash b
  /\ address r = None
  /\ exists data : json,
      _hexToJSON (body b) = Some data
      /\ _hexToJSON (JString (toHex (JSON_stringify data))) = Some (body r).
Proof.
  unfold _construcDuplicateBlock.
  destruct (_hexToJSON (body b)) as [data|]; [|discriminate].
  cbn. destruct (_hexToJSON (JString (toHex (JSON_stringify data)))) as [d|] eqn:Hd;
    [|discriminate].
  intros [= <-]. cbn. repeat split. exists data. split; [reflexivity|exact Hd].
Qed.

(** The copy of a block whose body is an encoded value that round-trips. *)
Lemma duplicate_encoded (b : Block) (v : json) :
  body b = JString (toHex (JSON_stringify v)) ->
  round_trips v ->
  _construcDuplicateBlock b
  = Some (mkBlock (hash b) (BlockClass.height b) v (time b) (previousBlockHash b) None).
Proof.
  unfold round_trips, _construcDuplicateBlock. intros Hb Hv.
  rewrite Hb, Hv. cbn. rewrite Hv. reflexivity.
Qed.

(** X3: [getBlockByHash] with a hash that no stored block carries is
    rejected with the message "No block found for hash ..."; nothing is
    thrown. *)
Theorem getBlockByHash_unknown (h : string) (self : Blockchain) :
  (forall b : Block, In b (chain self) -> hash b <> Some h) ->
  getBlockByHash h self = Rejected (Message ("No block found for hash " ++ h)).
Proof.
  intros Hnone. unfold getBlockByHash.
  rewrite filter_none; [reflexivity|].
  intros b Hin. destruct (same_string (hash b) h) eqn:E; [|reflexivity].
  apply same_string_true in E. now apply Hnone in Hin.
Qed.

(** The blocks that carry a hash, when the first of them is known. *)
Lemma hash_filter_first (h : string) (before after : list Block) (b : Block) :
  (forall x : Block, In x before -> hash x <> Some h) ->
  hash b = Some h ->
  filter (fun block => same_string (hash block) h) (before ++ b :: after)
  = b :: filter (fun block => same_string (hash block) h) after.
Proof.
  intros Hbefore Hb. rewrite filter_app, (filter_none _ before).
  - cbn [app filter]. rewrite (proj2 (same_string_true (hash b) h) Hb). reflexivity.
  - intros x Hin. destruct (same_string (hash x) h) eqn:E; [|reflexivity].
    apply same_string_true in E. now apply Hbefore in Hin.
Qed.

(** X4: [getBlockByHash] answers from the first block of the array that
    carries the hash: with a copy of it when its body decodes, with a
    SyntaxError when it does not. *)
Theorem getBlockByHash_first_match (h : string) (self : Blockchain)
    (before after : list Block) (b : Block) :
  chain self = (before ++ b :: after)%list ->
  (forall x : Block, In x before -> hash x <> Some h) ->
  hash b = Some h ->
  getBlockByHash h self
  = match _construcDuplicateBlock b with
    | Some responseBlock => Resolved responseBlock
    | None => Rejected SyntaxError
    end.
Proof.
  intros Hc Hbefore Hb. unfold getBlockByHash.
  rewrite Hc, (hash_filter_first h before after b Hbefore Hb).
  reflexivity.
Qed.

(** X5: a block that [getBlockByHash] or [getBlockByHeight] answers with
    has the hash, height, time and previous hash of a stored block that
    matches the request, and never an owner address. *)
Theorem lookups_answer_stored_blocks (self : Blockchain) (r : Block) :
  (forall h : string,
      getBlockByHash h self = Resolved r ->
      exists b : Block,
        In b (chain self) /\ hash b = Some h /\ frame r = frame (set_address None b))
  /\ (forall h : Z,
         getBlockByHeight h self = Resolved (Some r) ->
         exists b : Block,
           In b (chain self) /\ BlockClass.height b = h
           /\ frame r = frame (set_address None b)).
Proof.
  split; intros h.
  - unfold getBlockByHash.
    destruct (filter _ (chain self)) as [|b rest] eqn:Hf; [discriminate|].
    cbn. destruct (_construcDuplicateBlock b) as [r'|] eqn:Hd; [|discriminate].
    intros [= ->].
    assert (Hin : In b (filter (fun block => same_string (hash block) h) (chain self)))
      by (rewrite Hf; now left).
    apply filter_In in Hin. destruct Hin as [Hin Hh].
    apply same_string_true in Hh.
    destruct (duplicate_fields b r Hd) as (H1 & H2 & H3 & H4 & H5 & _).
    exists b. repeat split; try assumption.
    unfold frame. cbn. now rewrite H1, H2, H3, H4, H5.
  - unfold getBlockByHeight.
    destruct (filter _ (chain self)) as [|b rest] eqn:Hf; [discriminate|].
    cbn. destruct (BlockClass.height b >=? 0); [|discriminate].
    destruct (_construcDuplicateBlock b) as [r'|] eqn:Hd; [|discriminate].
    intros [= ->].
    assert (Hin : In b (filter (fun p => BlockClass.height p =? h) (chain self)))
      by (rewrite Hf; now left).
    apply filter_In in Hin. destruct Hin as [Hin Hh]. apply Z.eqb_eq in Hh.
    destruct (duplicate_fields b r Hd) as (H1 & H2 & H3 & H4 & H5 & _).
    exists b. repeat split; try assumption.
    unfold frame. cbn. now rewrite H1, H2, H3, H4, H5.
Qed.

(** On an array numbered from [k + 1], only the block at index [i] has
    height [k + i + 1]. *)
Lemma filter_numbered (c : list Block) (k i : nat) (b : Block) :
  (forall (j : nat) (x : Block),
      nth_error c j = Some x -> BlockClass.height x = Z.of_nat (k + j) + 1) ->
  nth_error c i = Some b ->
  filter (fun p => BlockClass.height p =? Z.of_nat (k + i) + 1) c = [b].
Proof.
  revert k i. induction c as [|x rest IH]; intros k i Hn Hb.
  - destruct i; discriminate.
  - destruct i as [|i].
    + cbn in Hb. injection Hb as ->. cbn [filter].
      rewrite (Hn 0%nat b eq_refl), Z.eqb_refl. f_equal.
      apply filter_none. intros y Hy.
      destruct (In_nth_error rest y Hy) as (j & Hj).
      rewrite (Hn (S j) y Hj). apply Z.eqb_neq. lia.
    + cbn in Hb. cbn [filter].
      rewrite (Hn 0%nat x eq_refl).
      replace (Z.of_nat (k + 0) + 1 =? Z.of_nat (k + S i) + 1) with false
        by (symmetry; apply Z.eqb_neq; lia).
      replace (k + S i)%nat with (S k + i)%nat by lia.
      apply IH; [|exact Hb].
      intros j y Hy. rewrite (Hn (S j) y Hy). f_equal. lia.
Qed.

(** In a reachable state one block has height [i + 1]: the one at index
    [i]; its height passes the test of [getBlockByHeight]. *)
Lemma height_filter_single (self : Blockchain) (i : nat) (b : Block) :
  reachable self ->
  nth_error (chain self) i = Some b ->
  filter (fun p => BlockClass.height p =? Z.of_nat i + 1) (chain self) = [b]
  /\ (BlockClass.height b >=? 0) = true.
Proof.
  intros Hr Hb.
  pose proof (sound_numbered self (reachable_sound self Hr)) as Hn.
  split; [exact (filter_numbered (chain self) 0 i b Hn Hb)|].
  rewrite (Hn i b Hb). apply Z.geb_le. lia.
Qed.

(** X6: in a reachable state [getBlockByHeight(i + 1)] answers from the
    block at index [i] of the array: with a copy of it when its body
    decodes, with a SyntaxError when it does not. *)
Theorem getBlockByHeight_stored (self : Blockchain) (i : nat) (b : Block) :
  reachable self ->
  nth_error (chain self) i = Some b ->
  getBlockByHeight (Z.of_nat i + 1) self
  = match _construcDuplicateBlock b with
    | Some responseBlock => Resolved (Some responseBlock)
    | None => Rejected SyntaxError
    end.
Proof.
  intros Hr Hb. unfold getBlockByHeight.
  destruct (height_filter_single self i b Hr Hb) as [Hf Hpos].
  rewrite Hf. cbn [JS.index nth_error]. rewrite Hpos. reflexivity.
Qed.

(** X7: in a reachable state [getBlockByHeight] never resolves with null:
    the branch written for a missing block is not taken. *)
Theorem getBlockByHeight_never_null (h : Z) (self : Blockchain) :
  reachable self ->
  getBlockByHeight h self <> Resolved None.
Proof.
  intros Hr. unfold getBlockByHeight.
  destruct (filter _ (chain self)) as [|b rest] eqn:Hf; [discriminate|].
  cbn.
  assert (Hin : In b (filter (fun p => BlockClass.height p =? h) (chain self)))
    by (rewrite Hf; now left).
  apply filter_In in Hin. destruct Hin as [Hin _].
  pose proof (numbered_bounds (chain self) b
                (sound_numbered self (reachable_sound self Hr)) Hin) as Hb.
  replace (BlockClass.height b >=? 0) with true by (symmetry; apply Z.geb_le; lia).
  destruct (_construcDuplicateBlock b); discriminate.
Qed.

End Lookups.

(** ** Submissions and what the look-ups then answer *)

Section Compositions.

Context {L : Libs}.

Lemma nth_error_last {A : Type} (l : list A) (x : A) :
  nth_error (l ++ [x]) (List.length l) = Some x.
Proof.
  rewrite nth_error_app2 by lia. now rewrite Nat.sub_diag.
Qed.

(** X8: after a submission in which [verify] answers, made in a reachable
    state with a star that round-trips through the encoding,
    [getBlockByHeight] of the new height answers with the stored block
    carrying the star decoded and no owner address. *)
Theorem submitStar_then_getBlockByHeight (now : Z)
    (address message signature : string) (star : json) (self : Blockchain)
    (verified : bool) :
  reachable self ->
  verify message address signature = Some verified ->
  round_trips star ->
  exists block : Block,
    chain (ledger (submitStar now address message signature star self))
    = (chain self ++ [block])%list
    /\ getBlockByHeight (Z.of_nat (List.length (chain self)) + 1)
         (ledger (submitStar now address message signature star self))
       = Resolved (Some (set_address None (set_body star block))).
Proof.
  intros Hr Hv Hstar.
  destruct (submitStar_appends now address message signature star self verified Hv)
    as (block & Hc & Ha & Hb).
  exists block. split; [exact Hc|].
  destruct (height_filter_single _ (List.length (chain self)) block
              (reach_submitStar now address message signature star self Hr))
    as [Hf Hpos]; [rewrite Hc; apply nth_error_last|].
  unfold getBlockByHeight. rewrite Hf. cbn [JS.index nth_error]. rewrite Hpos.
  rewrite (duplicate_encoded block star Hb Hstar). reflexivity.
Qed.

Lemma getStars_decoded (address : string) (self : Blockchain) (decoded : list json) :
  filter (owned_by address) (chain self) <> [] ->
  map (fun b => _hexToJSON (body b)) (filter (owned_by address) (chain self))
  = map Some decoded ->
  found (getStarsByWalletAddress address self)
  = Resolved (decoded_blocks (filter (owned_by address) (chain self)) decoded).
Proof.
  intros Hsome Hm. unfold getStarsByWalletAddress.
  destruct (filter (owned_by address) (chain self)) as [|x xs] eqn:Hf;
    [contradiction|].
  cbn [List.length Nat.ltb Nat.leb]. rewrite <- Hf in Hm |- *.
  destruct (decode_in_place_all address (chain self) decoded Hm) as (c' & Hd & Hc').
  rewrite Hd, Hc'. reflexivity.
Qed.

(** X9: after a first submission for an address, made with a star that
    round-trips, [getStarsByWalletAddress] of that address is fulfilled
    with exactly one block: the stored one with the star as its body. *)
Theorem submitStar_then_getStars (now : Z)
    (address message signature : string) (star : json) (self : Blockchain)
    (verified : bool) :
  verify message address signature = Some verified ->
  round_trips star ->
  filter (owned_by address) (chain self) = [] ->
  exists block : Block,
    chain (ledger (submitStar now address message signature star self))
    = (chain self ++ [block])%list
    /\ found (getStarsByWalletAddress address
                (ledger (submitStar now address message signature star self)))
       = Resolved [set_body star block].
Proof.
  intros Hv Hstar Hnone.
  destruct (submitStar_appends now address message signature star self verified Hv)
    as (block & Hc & Ha & Hb).
  exists block. split; [exact Hc|].
  assert (Hown : owned_by address block = true).
  { unfold owned_by. rewrite Ha. cbn. apply String.eqb_refl. }
  assert (Hf : filter (owned_by address)
                 (chain (ledger (submitStar now address message signature star self)))
               = [block]).
  { rewrite Hc, filter_app, Hnone. cbn. now rewrite Hown. }
  rewrite (getStars_decoded address _ [star]).
  - rewrite Hf. reflexivity.
  - rewrite Hf. discriminate.
  - rewrite Hf. cbn. rewrite Hb. unfold round_trips in Hstar. now rewrite Hstar.
Qed.

Lemma owned_filter_length (address : string) (c c' : list Block) :
  map frame c' = map frame c ->
  List.length (filter (owned_by address) c') = List.length (filter (owned_by address) c).
Proof.
  revert c. induction c' as [|x' r' IH]; intros [|x r] Hm; try discriminate;
    [reflexivity|].
  cbn in Hm. inversion Hm as [[Hhash Hheight Htime Hprev Haddr Hr]]. cbn [filter].
  assert (Ho : owned_by address x' = owned_by address x).
  { unfold owned_by. now rewrite Haddr. }
  rewrite Ho. destruct (owned_by address x); cbn; rewrite (IH r Hr); reflexivity.
Qed.

Lemma decode_in_place_stuck (address : string) (c : list Block) :
  filter (owned_by address) c <> [] ->
  (forall b : Block, In b (filter (owned_by address) c) -> _hexToJSON (body b) = None) ->
  decode_in_place address c = (c, Some SyntaxError).
Proof.
  induction c as [|x rest IH]; intros Hsome Hnone; [contradiction|].
  cbn [decode_in_place filter] in *.
  destruct (owned_by address x) eqn:Hx.
  - rewrite (Hnone x (or_introl eq_refl)). reflexivity.
  - rewrite (IH Hsome Hnone). reflexivity.
Qed.

(** X10: once [getStarsByWalletAddress] has been fulfilled for an address,
    and the decoded stars do not themselves decode, the same call is
    rejected with a SyntaxError and changes nothing more. *)
Theorem getStars_second_call_throws (address : string) (self : Blockchain)
    (l : list Block) :
  found (getStarsByWalletAddress address self) = Resolved l ->
  (forall b : Block, In b l -> _hexToJSON (body b) = None) ->
  getStarsByWalletAddress address
    (ledger_after (getStarsByWalletAddress address self))
  = mkStars (Rejected SyntaxError)
      (ledger_after (getStarsByWalletAddress address self)).
Proof.
  intros Hfound Hnone.
  destruct (getStars_resolved address self l Hfound) as (c' & Hd & Hl & Hfilter).
  rewrite Hl. subst l.
  assert (Hsome : filter (owned_by address) c' <> []).
  { assert (Hlen : List.length (filter (owned_by address) c')
                   = List.length (filter (owned_by address) (chain self))).
    { apply owned_filter_length.
      pose proof (decode_in_place_frames address (chain self)) as Hf.
      now rewrite Hd in Hf. }
    unfold getStarsByWalletAddress in Hfound.
    destruct (0 <? List.length (filter (owned_by address) (chain self)))%nat eqn:Hpos;
      [|discriminate].
    apply Nat.ltb_lt in Hpos. intros Hnil. rewrite Hnil in Hlen. cbn in Hlen. lia. }
  unfold getStarsByWalletAddress at 1. cbn [chain height].
  destruct (filter (owned_by address) c') as [|x xs] eqn:Hf; [contradiction|].
  cbn [List.length Nat.ltb Nat.leb]. rewrite <- Hf in Hnone, Hsome.
  rewrite (decode_in_place_stuck address c' Hsome Hnone). reflexivity.
Qed.

(** X11: [initializeChain] is not idempotent: called again in a reachable
    state it finds [this.height] still at -1 and appends one more block
    built from the genesis data, without owner, at the next height. *)
Theorem initializeChain_again (now : Z) (self : Blockchain) :
  reachable self ->
  exists g : Block,
    chain (initializeChain now self) = (chain self ++ [g])%list
    /\ body g = JString (toHex (JSON_stringify genesis_data))
    /\ address g = None
    /\ BlockClass.height g = Z.of_nat (List.length (chain self)) + 1.
Proof.
  intros Hr. unfold initializeChain.
  rewrite (sound_height self (reachable_sound self Hr)). cbn [Z.eqb Pos.eqb].
  eexists. split; [apply addBlock_chain|].
  rewrite addBlock_block_body, addBlock_block_address, addBlock_block_height.
  repeat split.
Qed.

(** X12: in a reachable state, when no entry is seen in the array of
    [validateChain], the challenge is not expired and [verify] answers
    true, the promise of [submitStar] is fulfilled with the block that has
    been appended: owned by the address, with the encoded star as body, at
    the next height and with the hash of the former last block as previous
    hash. *)
Theorem submitStar_fulfilled (now : Z)
    (address message signature : string) (star : json) (self : Blockchain) :
  reachable self ->
  errorLog_seen (validateChain self) = [] ->
  expired now message = false ->
  verify message address signature = Some true ->
  exists block tail : Block,
    settled (submitStar now address message signature star self) = Resolved block
    /\ chain (ledger (submitStar now address message signature star self))
       = (chain self ++ [block])%list
    /\ nth_error (chain self) (List.length (chain self) - 1) = Some tail
    /\ previousBlockHash block = hash tail
    /\ BlockClass.height block = Z.of_nat (List.length (chain self)) + 1
    /\ BlockClass.address block = Some address
    /\ body block = JString (toHex (JSON_stringify star))
    /\ time block = JString (_getCurrentTimeStamp now).
Proof.
  intros Hr Hlog He Hv.
  destruct (sound_genesis self (reachable_sound self Hr)) as (g & rest & Hc & _).
  assert (Htail : exists tail, nth_error (chain self) (List.length (chain self) - 1)
                               = Some tail).
  { destruct (nth_error (chain self) (List.length (chain self) - 1)) eqn:E; [eauto|].
    apply nth_error_None in E. rewrite Hc in E. cbn in E. lia. }
  destruct Htail as [tail Htail].
  exists (fst (_addBlock now (set_address (Some address) (new_Block star)) self)), tail.
  split; [|split; [|split; [exact Htail|split; [|split; [|split; [|split]]]]]].
  - rewrite submitStar_settled, Hv. unfold gates. rewrite Hlog, He. reflexivity.
  - rewrite submitStar_ledger, Hv. apply addBlock_chain.
  - now apply addBlock_block_previous.
  - apply addBlock_block_height.
  - now rewrite addBlock_block_address.
  - now rewrite addBlock_block_body.
  - unfold _addBlock, _getCurrentTimeStamp. cbn.
    destruct (List.length (chain self)); reflexivity.
Qed.

(** X13: after a submission in which [verify] answers, made with a star
    that round-trips, and when no earlier block carries the hash of the new
    block, [getBlockByHash] of that hash answers with the stored block
    carrying the star decoded and no owner address. *)
Theorem submitStar_then_getBlockByHash (now : Z)
    (address message signature : string) (star : json) (self : Blockchain)
    (verified : bool) :
  verify message address signature = Some verified ->
  round_trips star ->
  exists (block : Block) (h : string),
    chain (ledger (submitStar now address message signature star self))
    = (chain self ++ [block])%list
    /\ hash block = Some h
    /\ ((forall x : Block, In x (chain self) -> hash x <> Some h) ->
        getBlockByHash h (ledger (submitStar now address message signature star self))
        = Resolved (set_address None (set_body star block))).
Proof.
  intros Hv Hstar.
  destruct (submitStar_appends now address message signature star self verified Hv)
    as (block & Hc & Ha & Hb).
  assert (Hh : exists h : string, hash block = Some h).
  { assert (Hblock : block
                     = fst (_addBlock now (set_address (Some address) (new_Block star))
                              self)).
    { rewrite submitStar_ledger, Hv, addBlock_chain in Hc.
      apply app_inv_head in Hc. now injection Hc as <-. }
    rewrite Hblock. eexists. reflexivity. }
  destruct Hh as [h Hh]. exists block, h.
  split; [exact Hc|]. split; [exact Hh|]. intros Hfresh.
  unfold getBlockByHash.
  rewrite Hc, (hash_filter_first h (chain self) [] block Hfresh Hh).
  cbn [filter List.length Nat.ltb Nat.leb JS.index nth_error].
  rewrite (duplicate_encoded block star Hb Hstar). reflexivity.
Qed.

End Compositions.

(** ** validateChain, pair by pair *)

Section Validation.

Context {L : Libs}.

(** The turns of the loop from index [length before + 1] on are the
    consecutive pairs of the remaining blocks. *)
Lemma turns_from (before rest : list Block) (p : Block) :
  flat_map (validateChain_turn (before ++ p :: rest))
    (seq (S (List.length before)) (List.length rest))
  = flat_map pair_reactions (combine (p :: rest) rest).
Proof.
  revert before p. induction rest as [|x rest IH]; intros before p; [reflexivity|].
  cbn [List.length seq flat_map combine].
  f_equal.
  - unfold validateChain_turn, JS.index.
    replace (S (List.length before) - 1)%nat with (List.length before) by lia.
    rewrite (nth_error_app2 _ _ (n := S (List.length before))) by lia.
    replace (S (List.length before) - List.length before)%nat with 1%nat by lia.
    rewrite (nth_error_app2 _ _ (n := List.length before)) by lia.
    rewrite Nat.sub_diag. reflexivity.
  - specialize (IH (before ++ [p])%list x).
    rewrite <- app_assoc in IH. cbn [app] in IH.
    rewrite length_app in IH. cbn [List.length] in IH.
    replace (List.length before + 1)%nat with (S (List.length before)) in IH by lia.
    exact IH.
Qed.

Lemma queued_pairs (self : Blockchain) :
  queued (validateChain self)
  = flat_map pair_reactions (combine (chain self) (tl (chain self))).
Proof.
  unfold validateChain. cbn [queued].
  destruct (chain self) as [|g rest]; [reflexivity|].
  cbn [List.length tl Nat.sub]. rewrite Nat.sub_0_r.
  exact (turns_from [] rest g).
Qed.

Lemma entries_of_pairs (pairs : list (Block * Block)) :
  map entry (filter truthy (flat_map pair_reactions pairs))
  = flat_map pair_entries pairs.
Proof.
  induction pairs as [|[p c] pairs IH]; [reflexivity|].
  cbn [flat_map]. rewrite filter_app, map_app, IH. f_equal.
  unfold pair_reactions, pair_entries. cbn [fst snd filter truthy].
  destruct (validate c), (validate p); reflexivity.
Qed.

(** X14: the array of [validateChain], once its reactions have run, lists
    the consecutive pairs of blocks in chain order: for each pair an entry
    with the height of the second block when that block answers a truthy
    value, then an entry naming no height when the first block does. *)
Theorem validateChain_entries (self : Blockchain) :
  errorLog_seen (validateChain self)
  = flat_map pair_entries (combine (chain self) (tl (chain self))).
Proof.
  unfold errorLog_seen.
  rewrite errorLog_entries, queued_pairs, entries_of_pairs.
  reflexivity.
Qed.

Lemma pair_entries_nil (pairs : list (Block * Block)) :
  flat_map pair_entries pairs = [] <->
  forall p c : Block, In (p, c) pairs -> validate p = false /\ validate c = false.
Proof.
  induction pairs as [|[p c] pairs IH]; cbn [flat_map].
  - split; [intros _ p c []|reflexivity].
  - split.
    + intros H. apply app_eq_nil in H. destruct H as [Hpc Hrest].
      intros p' c' [[= <- <-]|Hin]; [|now apply IH].
      unfold pair_entries in Hpc. destruct (validate c), (validate p);
        try discriminate. split; reflexivity.
    + intros H. destruct (H p c (or_introl eq_refl)) as [Hp Hc].
      unfold pair_entries at 1. rewrite Hp, Hc. cbn.
      apply IH. intros p' c' Hin. apply H. now right.
Qed.

Lemma in_consecutive (g : Block) (rest : list Block) (b : Block) :
  rest <> [] -> In b (g :: rest) ->
  exists p c : Block, In (p, c) (combine (g :: rest) rest) /\ (b = p \/ b = c).
Proof.
  revert g. induction rest as [|x rest IH]; intros g Hne Hin; [contradiction|].
  destruct Hin as [<-|Hin].
  - exists g, x. split; [now left|now left].
  - destruct rest as [|y rest].
    + destruct Hin as [<-|[]]. exists g, x. split; [now left|now right].
    + destruct (IH x ltac:(discriminate) Hin) as (p & c & Hpc & Hb).
      exists p, c. split; [now right|exact Hb].
Qed.

(** X15: on a chain of two blocks or more, the array of [validateChain]
    stays empty exactly when every block answers a falsy value to
    [validate]. *)
Theorem validateChain_empty_iff (self : Blockchain) :
  (2 <= List.length (chain self))%nat ->
  errorLog_seen (validateChain self) = [] <->
  forall b : Block, In b (chain self) -> validate b = false.
Proof.
  intros Hlen. unfold errorLog_seen.
  rewrite errorLog_entries, queued_pairs, entries_of_pairs.
  cbn [resolved_with validateChain app]. rewrite pair_entries_nil.
  destruct (chain self) as [|g rest]; [cbn in Hlen; lia|].
  cbn [tl]. assert (Hne : rest <> []) by (destruct rest; [cbn in Hlen; lia|discriminate]).
  split.
  - intros H b Hin.
    destruct (in_consecutive g rest b Hne Hin) as (p & c & Hpc & [->| ->]);
      now destruct (H p c Hpc).
  - intros H p c Hin. split; apply H.
    + apply in_combine_l in Hin. exact Hin.
    + apply in_combine_r in Hin. now right.
Qed.

(** X16: on a chain of two blocks or more in which every block answers a
    truthy value to [validate], every call of [submitStar] has its promise
    rejected with the entries of [validateChain], whatever the signature and
    the age of the challenge. *)
Theorem submitStar_rejected_on_valid_chain (now : Z)
    (address message signature : string) (star : json) (self : Blockchain) :
  (2 <= List.length (chain self))%nat ->
  (forall b : Block, In b (chain self) -> validate b = true) ->
  errorLog_seen (validateChain self) <> []
  /\ settled (submitStar now address message signature star self)
     = Rejected (ErrorLog (errorLog_seen (validateChain self))).
Proof.
  intros Hlen Hvalid.
  assert (Hlog : errorLog_seen (validateChain self) <> []).
  { unfold errorLog_seen.
    rewrite errorLog_entries, queued_pairs, entries_of_pairs.
    cbn [resolved_with validateChain app].
    destruct (chain self) as [|g [|b rest]] eqn:Hc; cbn in Hlen; try lia.
    cbn [tl combine flat_map]. unfold pair_entries at 1.
    rewrite (Hvalid b) by (cbn; auto). discriminate. }
  split; [exact Hlog|].
  rewrite submitStar_settled. unfold gates.
  destruct (errorLog_seen (validateChain self)) as [|e log]; [contradiction|].
  cbn [List.length Nat.ltb Nat.leb reject].
  destruct (expired now message); cbn [reject];
    destruct (verify message address signature) as [[|]|]; reflexivity.
Qed.

End Validation.

(** ** What the methods keep *)

Section Kept.

Context {L : Libs}.

Lemma addBlock_intact (now : Z) (block : Block) (self : Blockchain) :
  hash block = None -> intact (fst (_addBlock now block self)).
Proof.
  destruct block as [h he bo ti pr ad]. cbn [hash]. intros ->.
  unfold intact, _addBlock. cbn.
  destruct (List.length (chain self)); reflexivity.
Qed.

Lemma all_intact_append (now : Z) (block : Block) (self : Blockchain) :
  hash block = None ->
  (forall b : Block, In b (chain self) -> intact b) ->
  forall b : Block, In b (chain (snd (_addBlock now block self))) -> intact b.
Proof.
  intros Hh Hall b Hin. rewrite addBlock_chain in Hin.
  apply in_app_or in Hin. destruct Hin as [Hin|[<-|[]]]; [now apply Hall|].
  now apply addBlock_intact.
Qed.

(** X17: as long as [getStarsByWalletAddress] has not been called, every
    stored block carries as hash the digest of its own serialisation with
    the [hash] field null. *)
Theorem written_blocks_intact (self : Blockchain) (b : Block) :
  written self -> In b (chain self) -> intact b.
Proof.
  intros Hw. revert b.
  induction Hw as [now|now self _ IH|now address message signature star self _ IH].
  - apply (all_intact_append now (new_Block genesis_data) (mkBlockchain [] (-1)));
      [reflexivity|intros b []].
  - unfold initializeChain. destruct (height self =? -1); [|exact IH].
    now apply all_intact_append.
  - rewrite submitStar_ledger.
    destruct (verify message address signature); [|exact IH].
    now apply all_intact_append.
Qed.

Lemma extends_refl (self : Blockchain) : extends self self.
Proof. exists []. cbn. now rewrite app_nil_r. Qed.

Lemma extends_addBlock (now : Z) (block : Block) (self : Blockchain) :
  extends self (snd (_addBlock now block self)).
Proof.
  exists [fst (_addBlock now block self)]. rewrite addBlock_chain. apply map_app.
Qed.

(** X18: no method removes, reorders or rewrites a stored block apart from
    its body: after [initializeChain], [submitStar] or
    [getStarsByWalletAddress] the array holds the former blocks, in order,
    with the same hash, height, time, previous hash and owner, possibly
    followed by a new block. *)
Theorem chain_append_only (self : Blockchain) :
  (forall now : Z, extends self (initializeChain now self))
  /\ (forall (now : Z) (address message signature : string) (star : json),
         extends self (ledger (submitStar now address message signature star self)))
  /\ (forall address : string,
         extends self (ledger_after (getStarsByWalletAddress address self))).
Proof.
  split; [|split].
  - intros now. unfold initializeChain.
    destruct (height self =? -1); [apply extends_addBlock|apply extends_refl].
  - intros now address message signature star. rewrite submitStar_ledger.
    destruct (verify message address signature);
      [apply extends_addBlock|apply extends_refl].
  - intros address. exists [].
    destruct (getStars_ledger address self) as [_ Hf]. rewrite Hf.
    cbn. now rewrite app_nil_r.
Qed.

Lemma numbered_heights (c : list Block) (k : nat) :
  (forall (j : nat) (x : Block),
      nth_error c j = Some x -> BlockClass.height x = Z.of_nat (k + j) + 1) ->
  map BlockClass.height c
  = map (fun i => Z.of_nat i + 1) (seq k (List.length c)).
Proof.
  revert k. induction c as [|x rest IH]; intros k Hn; [reflexivity|].
  cbn [map List.length seq]. f_equal.
  - rewrite (Hn 0%nat x eq_refl). f_equal. lia.
  - apply IH. intros j y Hy. rewrite (Hn (S j) y Hy). f_equal. lia.
Qed.

(** X19: in every reachable state the heights stored in the array are 1,
    2, ..., n in this order, n being the number of blocks. *)
Theorem heights_count_from_one (self : Blockchain) :
  reachable self ->
  map BlockClass.height (chain self)
  = map (fun i => Z.of_nat i + 1) (seq 0 (List.length (chain self))).
Proof.
  intros Hr. apply numbered_heights.
  exact (sound_numbered self (reachable_sound self Hr)).
Qed.

(** Blocks that do not belong to the address are left as they are by the
    [forEach], whether it runs to its end or throws. *)
Lemma decode_in_place_unowned (address : string) (c : list Block) (i : nat)
    (b : Block) :
  nth_error c i = Some b ->
  owned_by address b = false ->
  nth_error (fst (decode_in_place address c)) i = Some b.
Proof.
  revert i. induction c as [|x rest IH]; intros i Hb Ho; [destruct i; discriminate|].
  cbn [decode_in_place].
  destruct i as [|i]; cbn in Hb.
  - injection Hb as ->. rewrite Ho.
    destruct (decode_in_place address rest). reflexivity.
  - specialize (IH i Hb Ho).
    destruct (owned_by address x).
    + destruct (_hexToJSON (body x)); [|exact Hb].
      destruct (decode_in_place address rest). exact IH.
    + destruct (decode_in_place address rest). exact IH.
Qed.

Lemma getStars_unowned (address : string) (self : Blockchain) (i : nat) (b : Block) :
  nth_error (chain self) i = Some b ->
  owned_by address b = false ->
  nth_error (chain (ledger_after (getStarsByWalletAddress address self))) i = Some b.
Proof.
  intros Hb Ho. unfold getStarsByWalletAddress.
  destruct (0 <? List.length (filter (owned_by address) (chain self)))%nat;
    [|exact Hb].
  pose proof (decode_in_place_unowned address (chain self) i b Hb Ho) as Hd.
  destruct (decode_in_place address (chain self)) as [c' [e|]]; exact Hd.
Qed.

(** X20: [getStarsByWalletAddress] of one address leaves the blocks of
    every other owner, and the blocks without owner, exactly as they were,
    whatever the outcome of the call. *)
Theorem getStars_leaves_other_blocks (address : string) (self : Blockchain)
    (i : nat) (b : Block) :
  nth_error (chain self) i = Some b ->
  BlockClass.address b <> Some address ->
  nth_error (chain (ledger_after (getStarsByWalletAddress address self))) i = Some b.
Proof.
  intros Hb Ho. apply getStars_unowned; [exact Hb|].
  destruct (owned_by address b) eqn:E; [|reflexivity].
  apply same_string_true in E. contradiction.
Qed.

(** The first block of the array is the one the constructor stored. *)
Lemma genesis_kept (self : Blockchain) :
  reachable self ->
  exists now : Z, nth_error (chain self) 0 = Some (genesis now).
Proof.
  induction 1 as [now|now self _ IH
                 |now address message signature star self _ IH
                 |address self _ IH].
  - exists now. reflexivity.
  - destruct IH as [now0 IH]. exists now0. unfold initializeChain.
    destruct (height self =? -1); [|exact IH].
    rewrite addBlock_chain, nth_error_app1; [exact IH|].
    apply nth_error_Some. congruence.
  - destruct IH as [now0 IH]. exists now0. rewrite submitStar_ledger.
    destruct (verify message address signature); [|exact IH].
    rewrite addBlock_chain, nth_error_app1; [exact IH|].
    apply nth_error_Some. congruence.
  - destruct IH as [now0 IH]. exists now0.
    apply getStars_unowned; [exact IH|reflexivity].
Qed.

(** X21: in every reachable state, and provided the genesis data
    round-trips through the encoding, [getBlockByHeight(1)] answers with the
    block the constructor stored, its body decoded: the genesis block is
    found at height 1 and no method ever changes it. *)
Theorem getBlockByHeight_one_is_genesis (self : Blockchain) :
  reachable self ->
  round_trips genesis_data ->
  exists now : Z,
    nth_error (chain self) 0 = Some (genesis now)
    /\ getBlockByHeight 1 self = Resolved (Some (set_body genesis_data (genesis now))).
Proof.
  intros Hr Hg. destruct (genesis_kept self Hr) as [now Hfirst].
  exists now. split; [exact Hfirst|].
  destruct (height_filter_single self 0 (genesis now) Hr Hfirst) as [Hf Hpos].
  unfold getBlockByHeight. change 1 with (Z.of_nat 0 + 1) at 1.
  rewrite Hf. cbn [JS.index nth_error]. rewrite Hpos.
  rewrite (duplicate_encoded (genesis now) genesis_data eq_refl Hg). reflexivity.
Qed.

(** X22: in the first revision [getBlockByHeight] never rejects: it
    resolves with null exactly when no block has the height, and otherwise
    with a stored block of that height as it is, body still encoded. *)
Theorem revision0_getBlockByHeight (h : Z) (self : Blockchain) :
  match Revision0.getBlockByHeight h self with
  | Resolved None => forall b : Block, In b (chain self) -> BlockClass.height b <> h
  | Resolved (Some b) => In b (chain self) /\ BlockClass.height b = h
  | _ => False
  end.
Proof.
  unfold Revision0.getBlockByHeight.
  destruct (filter (fun p => BlockClass.height p =? h) (chain self)) as [|b rest] eqn:Hf;
    cbn.
  - intros b Hin Hh.
    assert (Hb : In b (filter (fun p => BlockClass.height p =? h) (chain self))).
    { apply filter_In. split; [exact Hin|]. now apply Z.eqb_eq. }
    rewrite Hf in Hb. exact Hb.
  - assert (Hb : In b (filter (fun p => BlockClass.height p =? h) (chain self)))
      by (rewrite Hf; now left).
    apply filter_In in Hb. destruct Hb as [Hin Hh]. split; [exact Hin|].
    now apply Z.eqb_eq.
Qed.

End Kept.

(** ** The further properties on the reference ledger *)

Section MoreRuns.

Import Reference.

Lemma star_round_trips : round_trips (L := libs) star.
Proof. vm_compute. reflexivity. Qed.

Lemma genesis_data_round_trips : round_trips (L := libs) genesis_data.
Proof. vm_compute. reflexivity. Qed.

Lemma reachable_fresh : reachable (L := libs) fresh.
Proof. apply reach_constructor. Qed.

Lemma reachable_one_star : reachable (L := libs) one_star.
Proof. apply reach_submitStar, reach_constructor. Qed.

Lemma good_signature :
  verify (Libs := libs) challenge owner (sign owner challenge) = Some true.
Proof. vm_compute. reflexivity. Qed.

Lemma one_star_chain :
  chain one_star
  = ([genesis (L := libs) 1700000000000] ++ stored 1700000100000 :: [])%list.
Proof. vm_compute. reflexivity. Qed.

(** The clock reading 1700000301123. *)
Lemma currentTime_is_seconds_witness :
  1000 <= 1700000301123
  /\ JS.parseInt (_getCurrentTimeStamp 1700000301123) = JS.Num 1700000301.
Proof.
  assert (H : 1000 <= 1700000301123) by lia.
  split; [exact H|]. exact (currentTime_is_seconds 1700000301123 H).
Defined.

(** A challenge for [owner], submitted 301 seconds after it was issued. *)
Lemma issued_challenge_elapsed_witness :
  no_colon owner = true
  /\ exists message : string,
      requestMessageOwnershipVerification 1700000000000 owner = Resolved message
      /\ timeElapsed 1700000301000 message = JS.Num 301
      /\ expired 1700000301000 message = false.
Proof.
  assert (Ho : no_colon owner = true) by (vm_compute; reflexivity).
  split; [exact Ho|].
  exact (issued_challenge_elapsed 1700000000000 1700000301000 owner
           ltac:(lia) ltac:(lia) Ho).
Defined.

(** A hash that the fresh ledger does not hold. *)
Lemma getBlockByHash_unknown_witness :
  (forall b : Block, In b (chain fresh) -> hash b <> Some "nonexistent")
  /\ getBlockByHash (L := libs) "nonexistent" fresh
     = Rejected (Message "No block found for hash nonexistent").
Proof.
  assert (H : forall b : Block, In b (chain fresh) -> hash b <> Some "nonexistent").
  { intros b [<-|[]]. vm_compute. discriminate. }
  split; [exact H|]. exact (getBlockByHash_unknown (L := libs) "nonexistent" fresh H).
Defined.

(** The hash of the star block on the ledger with one star. *)
Lemma getBlockByHash_first_match_witness :
  hash (stored 1700000100000) = Some star_hash
  /\ getBlockByHash (L := libs) star_hash one_star
     = Resolved (set_address None (set_body star (stored 1700000100000))).
Proof.
  assert (Hh : hash (stored 1700000100000) = Some star_hash)
    by (vm_compute; reflexivity).
  assert (Hb : forall x : Block,
             In x [genesis (L := libs) 1700000000000] -> hash x <> Some star_hash).
  { intros x [<-|[]]. vm_compute. discriminate. }
  split; [exact Hh|].
  rewrite (getBlockByHash_first_match (L := libs) star_hash one_star
             _ _ _ one_star_chain Hb Hh).
  vm_compute. reflexivity.
Defined.

(** The block found at height 2 on the ledger with one star. *)
Lemma lookups_answer_stored_blocks_witness :
  getBlockByHeight (L := libs) 2 one_star
  = Resolved (Some (set_address None (set_body star (stored 1700000100000))))
  /\ exists b : Block,
      In b (chain one_star) /\ BlockClass.height b = 2
      /\ frame (set_address None (set_body star (stored 1700000100000)))
         = frame (set_address None b).
Proof.
  assert (H : getBlockByHeight (L := libs) 2 one_star
              = Resolved (Some (set_address None (set_body star (stored 1700000100000)))))
    by (vm_compute; reflexivity).
  split; [exact H|].
  exact (proj2 (lookups_answer_stored_blocks (L := libs) one_star _) 2 H).
Defined.

(** Index 1 of the ledger with one star. *)
Lemma getBlockByHeight_stored_witness :
  nth_error (chain one_star) 1 = Some (stored 1700000100000)
  /\ getBlockByHeight (L := libs) 2 one_star
     = match _construcDuplicateBlock (L := libs) (stored 1700000100000) with
       | Some responseBlock => Resolved (Some responseBlock)
       | None => Rejected SyntaxError
       end.
Proof.
  assert (H : nth_error (chain one_star) 1 = Some (stored 1700000100000))
    by (vm_compute; reflexivity).
  split; [exact H|].
  exact (getBlockByHeight_stored (L := libs) one_star 1 _ reachable_one_star H).
Defined.

(** Height 0 on the fresh ledger. *)
Lemma getBlockByHeight_never_null_witness :
  reachable (L := libs) fresh
  /\ getBlockByHeight (L := libs) 0 fresh <> Resolved None.
Proof.
  split; [exact reachable_fresh|].
  exact (getBlockByHeight_never_null (L := libs) 0 fresh reachable_fresh).
Defined.

(** The first star on the fresh ledger, then the look-up by height. *)
Lemma submitStar_then_getBlockByHeight_witness :
  exists block : Block,
    chain one_star = (chain fresh ++ [block])%list
    /\ getBlockByHeight (L := libs) (Z.of_nat (List.length (chain fresh)) + 1) one_star
       = Resolved (Some (set_address None (set_body star block))).
Proof.
  exact (submitStar_then_getBlockByHeight (L := libs) 1700000100000 owner challenge
           (sign owner challenge) star fresh true reachable_fresh good_signature
           star_round_trips).
Defined.

(** The first star on the fresh ledger, then the stars of [owner]. *)
Lemma submitStar_then_getStars_witness :
  filter (owned_by owner) (chain fresh) = []
  /\ exists block : Block,
      chain one_star = (chain fresh ++ [block])%list
      /\ found (getStarsByWalletAddress (L := libs) owner one_star)
         = Resolved [set_body star block].
Proof.
  assert (H : filter (owned_by owner) (chain fresh) = []) by (vm_compute; reflexivity).
  split; [exact H|].
  exact (submitStar_then_getStars (L := libs) 1700000100000 owner challenge
           (sign owner challenge) star fresh true good_signature star_round_trips H).
Defined.

(** The first star on the fresh ledger, then the look-up by hash. *)
Lemma submitStar_then_getBlockByHash_witness :
  exists (block : Block) (h : string),
    chain one_star = (chain fresh ++ [block])%list
    /\ hash block = Some h
    /\ ((forall x : Block, In x (chain fresh) -> hash x <> Some h) ->
        getBlockByHash (L := libs) h one_star
        = Resolved (set_address None (set_body star block))).
Proof.
  exact (submitStar_then_getBlockByHash (L := libs) 1700000100000 owner challenge
           (sign owner challenge) star fresh true good_signature star_round_trips).
Defined.

(** The stars of [owner], asked for twice. *)
Lemma getStars_second_call_throws_witness :
  found (getStarsByWalletAddress (L := libs) owner one_star)
  = Resolved [set_body star (stored 1700000100000)]
  /\ getStarsByWalletAddress (L := libs) owner one_star_read
     = mkStars (Rejected SyntaxError) one_star_read.
Proof.
  assert (Hf : found (getStarsByWalletAddress (L := libs) owner one_star)
               = Resolved [set_body star (stored 1700000100000)])
    by (vm_compute; reflexivity).
  assert (Hn : forall b : Block,
             In b [set_body star (stored 1700000100000)] ->
             _hexToJSON (L := libs) (body b) = None).
  { intros b [<-|[]]. vm_compute. reflexivity. }
  split; [exact Hf|].
  exact (getStars_second_call_throws (L := libs) owner one_star _ Hf Hn).
Defined.

(** [initializeChain] called on the fresh ledger. *)
Lemma initializeChain_again_witness :
  reachable (L := libs) fresh
  /\ List.length (chain (initializeChain (L := libs) 1700000050000 fresh)) = 2%nat.
Proof.
  split; [exact reachable_fresh|].
  destruct (initializeChain_again (L := libs) 1700000050000 fresh reachable_fresh)
    as (g & Hc & _).
  rewrite Hc, length_app. reflexivity.
Defined.

(** The first star on the fresh ledger. *)
Lemma submitStar_fulfilled_witness :
  errorLog_seen (validateChain (L := libs) fresh) = []
  /\ expired 1700000100000 challenge = false
  /\ exists block tail : Block,
      settled (submit 1700000100000 challenge (sign owner challenge) fresh)
      = Resolved block
      /\ nth_error (chain fresh) 0 = Some tail
      /\ previousBlockHash block = hash tail
      /\ BlockClass.height block = 2.
Proof.
  assert (Hl : errorLog_seen (validateChain (L := libs) fresh) = [])
    by (vm_compute; reflexivity).
  assert (He : expired 1700000100000 challenge = false) by (vm_compute; reflexivity).
  split; [exact Hl|]. split; [exact He|].
  destruct (submitStar_fulfilled (L := libs) 1700000100000 owner challenge
              (sign owner challenge) star fresh reachable_fresh Hl He good_signature)
    as (block & tail & H1 & _ & H3 & H4 & H5 & _).
  exists block, tail. split; [exact H1|]. split; [exact H3|]. split; [exact H4|exact H5].
Defined.

(** The ledger with one star has two blocks, both answering true. *)
Lemma validateChain_empty_iff_witness :
  (2 <= List.length (chain one_star))%nat
  /\ (errorLog_seen (validateChain (L := libs) one_star) = [] <->
      forall b : Block, In b (chain one_star) -> validate (Libs := libs) b = false).
Proof.
  assert (H : (2 <= List.length (chain one_star))%nat) by (vm_compute; lia).
  split; [exact H|]. exact (validateChain_empty_iff (L := libs) one_star H).
Defined.

(** A second submission on the ledger with one star. *)
Lemma submitStar_rejected_on_valid_chain_witness :
  (2 <= List.length (chain one_star))%nat
  /\ (forall b : Block, In b (chain one_star) -> validate (Libs := libs) b = true)
  /\ settled (submit 1700000200000 challenge (sign owner challenge) one_star)
     = Rejected (ErrorLog (errorLog_seen (validateChain (L := libs) one_star))).
Proof.
  assert (Hlen : (2 <= List.length (chain one_star))%nat) by (vm_compute; lia).
  assert (Hvalid : forall b : Block,
             In b (chain one_star) -> validate (Libs := libs) b = true).
  { intros b [<-|[<-|[]]]; vm_compute; reflexivity. }
  split; [exact Hlen|]. split; [exact Hvalid|].
  exact (proj2 (submitStar_rejected_on_valid_chain (L := libs) 1700000200000 owner
                  challenge (sign owner challenge) star one_star Hlen Hvalid)).
Defined.

(** The star block of the ledger with one star. *)
Lemma written_blocks_intact_witness :
  written (L := libs) one_star
  /\ In (stored 1700000100000) (chain one_star)
  /\ intact (L := libs) (stored 1700000100000).
Proof.
  assert (Hw : written (L := libs) one_star)
    by (apply written_submitStar, written_constructor).
  assert (Hin : In (stored 1700000100000) (chain one_star))
    by (rewrite one_star_chain; right; left; reflexivity).
  split; [exact Hw|]. split; [exact Hin|].
  exact (written_blocks_intact (L := libs) one_star _ Hw Hin).
Defined.

(** The heights of the ledger with one star. *)
Lemma heights_count_from_one_witness :
  reachable (L := libs) one_star
  /\ map BlockClass.height (chain one_star) = [1; 2].
Proof.
  split; [exact reachable_one_star|].
  rewrite (heights_count_from_one (L := libs) one_star reachable_one_star).
  vm_compute. reflexivity.
Defined.

(** The genesis block while the stars of [owner] are read. *)
Lemma getStars_leaves_other_blocks_witness :
  nth_error (chain one_star) 0 = Some (genesis (L := libs) 1700000000000)
  /\ BlockClass.address (genesis (L := libs) 1700000000000) <> Some owner
  /\ nth_error (chain one_star_read) 0 = Some (genesis (L := libs) 1700000000000).
Proof.
  assert (Hb : nth_error (chain one_star) 0 = Some (genesis (L := libs) 1700000000000))
    by (vm_compute; reflexivity).
  assert (Ha : BlockClass.address (genesis (L := libs) 1700000000000) <> Some owner)
    by (vm_compute; discriminate).
  split; [exact Hb|]. split; [exact Ha|].
  exact (getStars_leaves_other_blocks (L := libs) owner one_star 0 _ Hb Ha).
Defined.

(** Height 1 once the stars of [owner] have been read. *)
Lemma getBlockByHeight_one_is_genesis_witness :
  reachable (L := libs) one_star_read
  /\ exists now : Z,
      nth_error (chain one_star_read) 0 = Some (genesis (L := libs) now)
      /\ getBlockByHeight (L := libs) 1 one_star_read
         = Resolved (Some (set_body genesis_data (genesis (L := libs) now))).
Proof.
  assert (Hr : reachable (L := libs) one_star_read)
    by (apply reach_getStars, reachable_one_star).
  split; [exact Hr|].
  exact (getBlockByHeight_one_is_genesis (L := libs) one_star_read Hr
           genesis_data_round_trips).
Defined.

End MoreRuns.
